(** * The OpenCS pathgrid editor ([apps/opencs/view/render/pathgrid.cpp])

    A shallow embedding of [CSVRender::Pathgrid]: the selection list, the
    two dirty flags and the per-tick [update], the drawables it owns, and
    the builders that push document commands onto a [CommandMacro].

    Conventions.
    - [int] values are [Z]; [static_cast<int>] of a [size_t] is [to_int]
      (two's complement wrap to 32 bits), [static_cast<unsigned short>] is
      [to_ushort] (reduction modulo 2^16).
    - [size_t] loop counters are [nat]: they only ever run up to the size
      of a [std::vector], so they never wrap.
    - [std::vector] is [list]; [operator[]] is [nth_error], and an access
      outside the vector (undefined behaviour in the source) is [None].
    - The object is passed explicitly: every member function takes the
      [Pathgrid] it acts on and returns the updated one; the shared
      document ([mData] / [mPathgridCollection]) is a read-only argument. *)

From Stdlib Require Import ZArith List String Bool Lia Floats.
From Stdlib Require Import Permutation Sorted.
From Equations Require Import Equations.
Import ListNotations.

Local Open Scope Z_scope.

(** ** Machine integers *)

Definition INT_MAX : Z := 2147483647.

Definition to_int (z : Z) : Z := (z + 2147483648) mod 4294967296 - 2147483648.

Definition to_ushort (z : Z) : Z := z mod 65536.

(** [static_cast<int>(v.size())]. *)
Definition int_of_size (n : nat) : Z := to_int (Z.of_nat n).

(** [++row] on an [int]. *)
Definition int_incr (row : Z) : Z := to_int (row + 1).

(** ** The document side ([CSMWorld], [ESM]) *)

Module ESM.

(** Modelled from the spec: [ESM::Land::REAL_SIZE] is declared outside
    these sources; the spec gives the extent of an exterior cell as 8192. *)
Definition REAL_SIZE : Z := 8192.

End ESM.

Module CSMWorld.

(** [ESM::Pathgrid::Point]: integer coordinates. *)
Record Point := { mX : Z; mY : Z; mZ : Z }.

(** [ESM::Pathgrid::Edge]: a directed pair of point rows. *)
Record Edge := { mV0 : Z; mV1 : Z }.

(** [CSMWorld::Pathgrid]: the persisted graph. *)
Record Pathgrid := { mPoints : list Point; mEdges : list Edge }.

(** Modelled from the spec: a record of the pathgrid collection, with
    its id, its soft-delete state ([isDeleted]) and its data ([get]). *)
Record PathgridRecord :=
  { recordId : string; isDeleted : bool; get : Pathgrid }.

Definition Collection := list PathgridRecord.

(** Modelled from the spec: [Collection::searchId] gives the row of the
    record with that id, or [-1] when the id is not in the collection. *)
Fixpoint searchId_from (row : Z) (c : Collection) (id : string) : Z :=
  match c with
  | [] => -1
  | r :: c' => if String.eqb (recordId r) id then row
               else searchId_from (row + 1) c' id
  end.

Definition searchId (c : Collection) (id : string) : Z :=
  searchId_from 0 c id.

(** [Collection::getIndex]: the row of the record with that id; the
    editor calls it only once the id has resolved. *)
Definition getIndex (c : Collection) (id : string) : Z := searchId c id.

Definition getRecord (c : Collection) (index : Z) : option PathgridRecord :=
  if index <? 0 then None else nth_error c (Z.to_nat index).

(** Column identifiers ([CSMWorld::Columns]); the model keeps a column
    index symbolic, as the id it was looked up from. *)
Inductive ColumnId :=
| ColumnId_PathgridPoints
| ColumnId_PathgridEdges
| ColumnId_PathgridPosX
| ColumnId_PathgridPosY
| ColumnId_PathgridPosZ
| ColumnId_PathgridEdge0
| ColumnId_PathgridEdge1.

(** [model->index(row, column, parent)] with
    [parent = model->index(recordIndex, parentColumn)]. *)
Record QModelIndex :=
  { qRow : Z; qColumn : ColumnId; qParentRow : Z; qParentColumn : ColumnId }.

(** The three primitive document edits the editor builds. *)
Inductive Command :=
| AddNestedCommand (id : string) (row : Z) (parentColumn : ColumnId)
| DeleteNestedCommand (id : string) (row : Z) (parentColumn : ColumnId)
| ModifyCommand (index : QModelIndex) (value : Z).

(** [CommandMacro]: the caller's ordered batch; [push] appends. *)
Definition CommandMacro := list Command.

Definition push (commands : CommandMacro) (c : Command) : CommandMacro :=
  commands ++ [c].

End CSMWorld.

(** ** The scene side ([osg], [SceneUtil]) *)

Module SceneUtil.

(** Modelled from the spec: the payload of a drawable is what it was
    built from, [createPathgridGeometry(source)] or
    [createPathgridSelectedWireframe(source, nodes)]. *)
Inductive Payload :=
| createPathgridGeometry (source : CSMWorld.Pathgrid)
| createPathgridSelectedWireframe (source : CSMWorld.Pathgrid)
                                  (selected : list Z).

(** A drawable object: [handle] is its identity (every creation yields a
    new object), [payload] its geometry. *)
Record Drawable := { handle : nat; payload : Payload }.

(** [osg::Geode]: the drawables attached to it. *)
Definition Geode := list Drawable.

Definition addDrawable (g : Geode) (d : Drawable) : Geode := g ++ [d].

Fixpoint removeDrawable (g : Geode) (d : Drawable) : Geode :=
  match g with
  | [] => []
  | x :: g' => if Nat.eqb (handle x) (handle d) then g'
               else x :: removeDrawable g' d
  end.

End SceneUtil.

(** ** [CSVRender::Pathgrid] *)

Module CSVRender.

Import CSMWorld SceneUtil.

Definition NodeList := list Z.

Definition Vec3d : Type := (float * float * float)%type.

Definition Vec3_zero : Vec3d := (0%float, 0%float, 0%float).

Definition Vec3_add (a b : Vec3d) : Vec3d :=
  let '(ax, ay, az) := a in
  let '(bx, by_, bz) := b in
  ((ax + bx)%float, (ay + by_)%float, (az + bz)%float).

(** The members of the class that the editor's logic reads or writes.
    [mNextHandle] is not a member: it stands for the allocator and is
    the identity the next created drawable receives. *)
Record Pathgrid := mkPathgrid
  { mId : string;
    mInterior : bool;
    mSelected : NodeList;
    mConnectionIndicator : bool;
    mConnectionNode : Z;
    mChangeGeometry : bool;
    mRemoveGeometry : bool;
    mSelectedNode : Vec3d;
    mPathgridGeode : Geode;
    mSelectedGeode : Geode;
    mPathgridGeometry : option Drawable;
    mSelectedGeometry : option Drawable;
    mNextHandle : nat }.

Definition set_mSelected (p : Pathgrid) (v : NodeList) : Pathgrid :=
  mkPathgrid (mId p) (mInterior p) v (mConnectionIndicator p)
    (mConnectionNode p) (mChangeGeometry p) (mRemoveGeometry p)
    (mSelectedNode p) (mPathgridGeode p) (mSelectedGeode p)
    (mPathgridGeometry p) (mSelectedGeometry p) (mNextHandle p).

Definition set_mConnection (p : Pathgrid) (b : bool) (node : Z) : Pathgrid :=
  mkPathgrid (mId p) (mInterior p) (mSelected p) b node
    (mChangeGeometry p) (mRemoveGeometry p)
    (mSelectedNode p) (mPathgridGeode p) (mSelectedGeode p)
    (mPathgridGeometry p) (mSelectedGeometry p) (mNextHandle p).

Definition set_mChangeGeometry (p : Pathgrid) (b : bool) : Pathgrid :=
  mkPathgrid (mId p) (mInterior p) (mSelected p) (mConnectionIndicator p)
    (mConnectionNode p) b (mRemoveGeometry p)
    (mSelectedNode p) (mPathgridGeode p) (mSelectedGeode p)
    (mPathgridGeometry p) (mSelectedGeometry p) (mNextHandle p).

Definition set_mRemoveGeometry (p : Pathgrid) (b : bool) : Pathgrid :=
  mkPathgrid (mId p) (mInterior p) (mSelected p) (mConnectionIndicator p)
    (mConnectionNode p) (mChangeGeometry p) b
    (mSelectedNode p) (mPathgridGeode p) (mSelectedGeode p)
    (mPathgridGeometry p) (mSelectedGeometry p) (mNextHandle p).

Definition set_mSelectedNode (p : Pathgrid) (v : Vec3d) : Pathgrid :=
  mkPathgrid (mId p) (mInterior p) (mSelected p) (mConnectionIndicator p)
    (mConnectionNode p) (mChangeGeometry p) (mRemoveGeometry p)
    v (mPathgridGeode p) (mSelectedGeode p)
    (mPathgridGeometry p) (mSelectedGeometry p) (mNextHandle p).

(** Replace the persisted-graph geode and the pointer to its drawable. *)
Definition set_pathgridDrawable (p : Pathgrid) (g : Geode)
           (d : option Drawable) (next : nat) : Pathgrid :=
  mkPathgrid (mId p) (mInterior p) (mSelected p) (mConnectionIndicator p)
    (mConnectionNode p) (mChangeGeometry p) (mRemoveGeometry p)
    (mSelectedNode p) g (mSelectedGeode p)
    d (mSelectedGeometry p) next.

(** Replace the highlight geode and the pointer to its drawable. *)
Definition set_selectedDrawable (p : Pathgrid) (g : Geode)
           (d : option Drawable) (next : nat) : Pathgrid :=
  mkPathgrid (mId p) (mInterior p) (mSelected p) (mConnectionIndicator p)
    (mConnectionNode p) (mChangeGeometry p) (mRemoveGeometry p)
    (mSelectedNode p) (mPathgridGeode p) g
    (mPathgridGeometry p) d next.

(** *** Graph source accessor *)

Definition getPathgridSource (data : Collection) (p : Pathgrid)
  : option CSMWorld.Pathgrid :=
  let index := searchId data (mId p) in
  if negb (index =? -1) then
    match getRecord data index with
    | Some r => if negb (isDeleted r) then Some (get r) else None
    | None => None
    end
  else None.

(** *** Spatial clamp *)

Definition clampToCell (p : Pathgrid) (v : Z) : Z :=
  let CellExtent := ESM.REAL_SIZE in
  if mInterior p then v
  else if v >? CellExtent then CellExtent
  else if v <? 0 then 0
  else v.

(** *** Drawables *)

Definition removePathgridGeometry (p : Pathgrid) : Pathgrid :=
  match mPathgridGeometry p with
  | Some d =>
      set_pathgridDrawable p (removeDrawable (mPathgridGeode p) d) None
                           (mNextHandle p)
  | None => p
  end.

Definition removeSelectedGeometry (p : Pathgrid) : Pathgrid :=
  match mSelectedGeometry p with
  | Some d =>
      set_selectedDrawable p (removeDrawable (mSelectedGeode p) d) None
                           (mNextHandle p)
  | None => p
  end.

(** [std::find] over a node list: the position of the first element equal
    to [node], [None] for the end iterator. *)
Fixpoint find (l : NodeList) (node : Z) : option nat :=
  match l with
  | [] => None
  | x :: l' => if x =? node then Some O
               else option_map S (find l' node)
  end.

(** [std::vector::erase] of the element at a position. *)
Fixpoint erase (l : NodeList) (pos : nat) : NodeList :=
  match l, pos with
  | [], _ => []
  | _ :: l', O => l'
  | x :: l', S pos' => x :: erase l' pos'
  end.

(** The node list handed to the highlight wireframe. *)
Definition highlightNodes (p : Pathgrid) : NodeList :=
  if mConnectionIndicator p then
    let tempList := mSelected p in
    let tempList :=
      match find tempList (mConnectionNode p) with
      | Some searchResult => erase tempList searchResult
      | None => tempList
      end in
    tempList ++ [mConnectionNode p]
  else mSelected p.

(** [createSelectedGeometry(const CSMWorld::Pathgrid& source)]. *)
Definition createSelectedGeometry_source (p : Pathgrid)
           (source : CSMWorld.Pathgrid) : Pathgrid :=
  let p := removeSelectedGeometry p in
  let d := {| handle := mNextHandle p;
              payload := createPathgridSelectedWireframe source
                           (highlightNodes p) |} in
  set_selectedDrawable p (addDrawable (mSelectedGeode p) d) (Some d)
                       (S (mNextHandle p)).

(** [createSelectedGeometry()]. *)
Definition createSelectedGeometry (data : Collection) (p : Pathgrid)
  : Pathgrid :=
  match getPathgridSource data p with
  | Some source => createSelectedGeometry_source p source
  | None => removeSelectedGeometry p
  end.

Definition recreateGeometry (p : Pathgrid) : Pathgrid :=
  set_mChangeGeometry p true.

Definition removeGeometry (p : Pathgrid) : Pathgrid :=
  set_mRemoveGeometry p true.

Definition createGeometry (data : Collection) (p : Pathgrid) : Pathgrid :=
  match getPathgridSource data p with
  | Some source =>
      let p := removePathgridGeometry p in
      let d := {| handle := mNextHandle p;
                  payload := createPathgridGeometry source |} in
      let p := set_pathgridDrawable p (addDrawable (mPathgridGeode p) d)
                                    (Some d) (S (mNextHandle p)) in
      createSelectedGeometry_source p source
  | None => removeGeometry p
  end.

(** The per-tick update. *)
Definition update (data : Collection) (p : Pathgrid) : Pathgrid :=
  let p :=
    if mRemoveGeometry p then
      removeSelectedGeometry (removePathgridGeometry p)
    else if mChangeGeometry p then
      createGeometry data p
    else p in
  let p := set_mChangeGeometry p false in
  set_mRemoveGeometry p false.

(** *** Selection state *)

(** The values an [unsigned short i] takes in
    [for (i = 0; i < bound; ++i)]: [bound] is itself an [unsigned short],
    so [i] stops before it could wrap. *)
Definition ushort_loop (bound : Z) : list Z :=
  map Z.of_nat (seq 0 (Z.to_nat bound)).

Definition pointCount (source : CSMWorld.Pathgrid) : Z :=
  to_ushort (Z.of_nat (List.length (mPoints source))).

Definition selectAll (data : Collection) (p : Pathgrid) : Pathgrid :=
  let p := set_mSelected p [] in
  match getPathgridSource data p with
  | Some source =>
      let p := fold_left (fun p i => set_mSelected p (mSelected p ++ [i]))
                         (ushort_loop (pointCount source)) p in
      createSelectedGeometry_source p source
  | None => removeSelectedGeometry p
  end.

Definition toggleSelected (data : Collection) (p : Pathgrid) (node : Z)
  : Pathgrid :=
  let p :=
    match find (mSelected p) node with
    | Some searchResult =>
        set_mSelected p (erase (mSelected p) searchResult)
    | None => set_mSelected p (mSelected p ++ [node])
    end in
  createSelectedGeometry data p.

Definition invertSelected (data : Collection) (p : Pathgrid) : Pathgrid :=
  let temp := mSelected p in
  let p := set_mSelected p [] in
  match getPathgridSource data p with
  | Some source =>
      let p := fold_left
                 (fun p i =>
                    match find temp i with
                    | None => set_mSelected p (mSelected p ++ [i])
                    | Some _ => p
                    end)
                 (ushort_loop (pointCount source)) p in
      createSelectedGeometry_source p source
  | None => removeSelectedGeometry p
  end.

Definition clearSelected (p : Pathgrid) : Pathgrid :=
  removeSelectedGeometry (set_mSelected p []).

Definition moveSelected (p : Pathgrid) (offset : Vec3d) : Pathgrid :=
  set_mSelectedNode p (Vec3_add (mSelectedNode p) offset).

Definition setupConnectionIndicator (data : Collection) (p : Pathgrid)
           (node : Z) : Pathgrid :=
  createSelectedGeometry data (set_mConnection p true node).

Definition resetMove (data : Collection) (p : Pathgrid) : Pathgrid :=
  let p := set_mSelectedNode p Vec3_zero in
  if mConnectionIndicator p then
    createSelectedGeometry data
      (set_mConnection p false (mConnectionNode p))
  else p.

(** The mutating operations of the selection state, as one type. *)
Inductive SelectionOp :=
| OpSelectAll
| OpToggle (node : Z)
| OpInvert
| OpClear
| OpSetConnectionIndicator (node : Z)
| OpResetMove.

Definition runSelectionOp (data : Collection) (p : Pathgrid)
           (op : SelectionOp) : Pathgrid :=
  match op with
  | OpSelectAll => selectAll data p
  | OpToggle node => toggleSelected data p node
  | OpInvert => invertSelected data p
  | OpClear => clearSelected p
  | OpSetConnectionIndicator node => setupConnectionIndicator data p node
  | OpResetMove => resetMove data p
  end.

(** *** Edit command builder *)

(** Linear scan for the row holding the directed pair
    [(node1, node2)]; [-1] when there is none. *)
Fixpoint edgeExists_from (i : nat) (edges : list Edge) (node1 node2 : Z)
  : Z :=
  match edges with
  | [] => -1
  | e :: edges' =>
      if (mV0 e =? node1) && (mV1 e =? node2) then int_of_size i
      else edgeExists_from (S i) edges' node1 node2
  end.

Definition edgeExists (source : CSMWorld.Pathgrid) (node1 node2 : Z) : Z :=
  edgeExists_from 0 (mEdges source) node1 node2.

(** [model->index(row, column, parent)] under the edges column. *)
Definition edgeIndex (data : Collection) (p : Pathgrid) (row : Z)
           (column : ColumnId) : QModelIndex :=
  {| qRow := row; qColumn := column;
     qParentRow := getIndex data (mId p);
     qParentColumn := ColumnId_PathgridEdges |}.

Definition addEdge (data : Collection) (p : Pathgrid)
           (commands : CommandMacro) (source : CSMWorld.Pathgrid)
           (node1 node2 : Z) : CommandMacro :=
  let parentColumn := ColumnId_PathgridEdges in
  let edge0Column := ColumnId_PathgridEdge0 in
  let edge1Column := ColumnId_PathgridEdge1 in
  let row := int_of_size (List.length (mEdges source)) in
  let '(commands, row) :=
    if edgeExists source node1 node2 =? -1 then
      let commands :=
        push commands (AddNestedCommand (mId p) row parentColumn) in
      let commands :=
        push commands
             (ModifyCommand (edgeIndex data p row edge0Column) node1) in
      let commands :=
        push commands
             (ModifyCommand (edgeIndex data p row edge1Column) node2) in
      (commands, int_incr row)
    else (commands, row) in
  if edgeExists source node2 node1 =? -1 then
    let commands :=
      push commands (AddNestedCommand (mId p) row parentColumn) in
    let commands :=
      push commands
           (ModifyCommand (edgeIndex data p row edge0Column) node2) in
    push commands
         (ModifyCommand (edgeIndex data p row edge1Column) node1)
  else commands.

Definition applyEdge (data : Collection) (p : Pathgrid)
           (commands : CommandMacro) (node1 node2 : Z) : CommandMacro :=
  match getPathgridSource data p with
  | Some source => addEdge data p commands source node1 node2
  | None => commands
  end.

Definition applyEdges (data : Collection) (p : Pathgrid)
           (commands : CommandMacro) (node : Z) : CommandMacro :=
  match getPathgridSource data p with
  | Some source =>
      fold_left (fun commands selected =>
                   addEdge data p commands source node selected)
                (mSelected p) commands
  | None => commands
  end.

(** [std::sort] with [std::greater<int>]: the elements in non-increasing
    order.  Equal integers cannot be told apart, so the arrangement is
    unique; it is built here by insertion. *)
Fixpoint insert_greater (x : Z) (l : list Z) : list Z :=
  match l with
  | [] => [x]
  | y :: l' => if y >? x then y :: insert_greater x l' else x :: l
  end.

Definition sort_greater (l : list Z) : list Z :=
  fold_right insert_greater [] l.

Definition applyRemoveNodes (data : Collection) (p : Pathgrid)
           (commands : CommandMacro) : CommandMacro * Pathgrid :=
  let '(commands, p) :=
    match getPathgridSource data p with
    | Some source =>
        let p := set_mSelected p (sort_greater (mSelected p)) in
        let parentColumn := ColumnId_PathgridPoints in
        (fold_left (fun commands row =>
                      push commands
                           (DeleteNestedCommand (mId p) row parentColumn))
                   (mSelected p) commands,
         p)
    | None => (commands, p)
    end in
  (commands, clearSelected p).

(** [std::set<int, std::greater<int> >]: the rows in strictly decreasing
    order, which is also the order of iteration. *)
Definition RowSet := list Z.

Fixpoint set_insert (s : RowSet) (row : Z) : RowSet :=
  match s with
  | [] => [row]
  | x :: s' =>
      if row >? x then row :: s
      else if row =? x then s
      else x :: set_insert s' row
  end.

(** The body of the pair scan of [applyRemoveEdges] at [(i, j)]; each
    [mSelected[k]] is a checked read. *)
Definition removeEdges_body (source : CSMWorld.Pathgrid) (sel : NodeList)
           (i j : nat) (rowsToRemove : RowSet) : option RowSet :=
  match nth_error sel i, nth_error sel j with
  | Some si, Some sj =>
      let row := edgeExists source si sj in
      let rowsToRemove :=
        if negb (row =? -1) then set_insert rowsToRemove row
        else rowsToRemove in
      let row := edgeExists source sj si in
      let rowsToRemove :=
        if negb (row =? -1) then set_insert rowsToRemove row
        else rowsToRemove in
      Some rowsToRemove
  | _, _ => None
  end.

(** [for (size_t j = ...; j < mSelected.size(); ++j)]. *)
Equations? removeEdges_inner (source : CSMWorld.Pathgrid) (sel : NodeList)
           (i j : nat) (rowsToRemove : RowSet)
  : option RowSet by wf (List.length sel - j)%nat lt :=
  removeEdges_inner source sel i j rowsToRemove with lt_dec j (List.length sel) => {
    | left _ with removeEdges_body source sel i j rowsToRemove => {
        | Some rows' := removeEdges_inner source sel i (S j) rows';
        | None := None };
    | right _ := Some rowsToRemove }.
Proof. clear removeEdges_inner; lia. Qed.

(** [for (size_t i = ...; i <= mSelected.size(); ++i)], each round
    running the inner loop from [j = i + 1]. *)
Equations? removeEdges_outer (source : CSMWorld.Pathgrid) (sel : NodeList)
           (i : nat) (rowsToRemove : RowSet)
  : option RowSet by wf (S (List.length sel) - i)%nat lt :=
  removeEdges_outer source sel i rowsToRemove with le_dec i (List.length sel) => {
    | left _ with removeEdges_inner source sel i (i + 1)%nat rowsToRemove => {
        | Some rows' := removeEdges_outer source sel (S i) rows';
        | None := None };
    | right _ := Some rowsToRemove }.
Proof. clear removeEdges_outer; destruct i; lia. Qed.

(** [None] stands for a read outside [mSelected]. *)
Definition applyRemoveEdges (data : Collection) (p : Pathgrid)
           (commands : CommandMacro) : option CommandMacro :=
  match getPathgridSource data p with
  | Some source =>
      match removeEdges_outer source (mSelected p) 0 [] with
      | Some rowsToRemove =>
          let parentColumn := ColumnId_PathgridEdges in
          Some (fold_left
                  (fun commands row =>
                     push commands
                          (DeleteNestedCommand (mId p) row parentColumn))
                  rowsToRemove commands)
      | None => None
      end
  | None => Some commands
  end.

(** *** Queries *)

Definition isSelected (p : Pathgrid) : bool :=
  match mSelected p with
  | [] => false
  | _ :: _ => true
  end.

Definition getSelected (p : Pathgrid) : NodeList := mSelected p.

(** *** Placing and moving points *)

(** [static_cast<int>] of a [double]: the value truncated toward zero.
    The conversion is undefined when the truncated value does not fit an
    [int] (and for infinities and NaN); that is [None]. *)
Definition double_to_int (f : float) : option Z :=
  match Prim2SF f with
  | S754_zero _ => Some 0
  | S754_finite s m e =>
      let magnitude :=
        if 0 <=? e then Z.pos m * 2 ^ e else Z.pos m / 2 ^ (- e) in
      let v := if s then - magnitude else magnitude in
      if (-2147483648 <=? v) && (v <=? 2147483647) then Some v else None
  | _ => None
  end.

(** [a + b] on two [int]s. *)
Definition int_add (a b : Z) : Z := to_int (a + b).

Definition Vec3_sub (a b : Vec3d) : Vec3d :=
  let '(ax, ay, az) := a in
  let '(bx, by_, bz) := b in
  ((ax - bx)%float, (ay - by_)%float, (az - bz)%float).

(** [model->index(row, column, parent)] under the points column. *)
Definition pointIndex (data : Collection) (p : Pathgrid) (row : Z)
           (column : ColumnId) : QModelIndex :=
  {| qRow := row; qColumn := column;
     qParentRow := getIndex data (mId p);
     qParentColumn := ColumnId_PathgridPoints |}.

(** [applyPoint].  [basePosition] is [mBaseNode->getPosition()], which
    the constructor sets from the cell coordinates and nothing changes
    afterwards.  [None] stands for an undefined conversion to [int]. *)
Definition applyPoint (data : Collection) (p : Pathgrid)
           (basePosition : Vec3d) (commands : CommandMacro)
           (worldPos : Vec3d) : option CommandMacro :=
  match getPathgridSource data p with
  | Some source =>
      let '(x, y, z) := Vec3_sub worldPos basePosition in
      match double_to_int x, double_to_int y, double_to_int z with
      | Some ix, Some iy, Some iz =>
          let posX := clampToCell p ix in
          let posY := clampToCell p iy in
          let posZ := clampToCell p iz in
          let parentColumn := ColumnId_PathgridPoints in
          let row := int_of_size (List.length (mPoints source)) in
          let commands :=
            push commands (AddNestedCommand (mId p) row parentColumn) in
          let commands :=
            push commands
                 (ModifyCommand
                    (pointIndex data p row ColumnId_PathgridPosX) posX) in
          let commands :=
            push commands
                 (ModifyCommand
                    (pointIndex data p row ColumnId_PathgridPosY) posY) in
          Some (push commands
                     (ModifyCommand
                        (pointIndex data p row ColumnId_PathgridPosZ) posZ))
      | _, _, _ => None
      end
  | None => Some commands
  end.

(** [source->mPoints[node]] for an [unsigned short] node: a checked
    read. *)
Definition pointAt (source : CSMWorld.Pathgrid) (node : Z) : option Point :=
  if node <? 0 then None else nth_error (mPoints source) (Z.to_nat node).

(** One round of the loop of [applyPosition], for the selected [node]. *)
Definition applyPosition_round (data : Collection) (p : Pathgrid)
           (source : CSMWorld.Pathgrid) (offsetX offsetY offsetZ : Z)
           (commands : option CommandMacro) (node : Z)
  : option CommandMacro :=
  match commands with
  | Some commands =>
      match pointAt source node with
      | Some point =>
          let row := node in
          let commands :=
            push commands
                 (ModifyCommand
                    (pointIndex data p row ColumnId_PathgridPosX)
                    (clampToCell p (int_add (mX point) offsetX))) in
          let commands :=
            push commands
                 (ModifyCommand
                    (pointIndex data p row ColumnId_PathgridPosY)
                    (clampToCell p (int_add (mY point) offsetY))) in
          Some (push commands
                     (ModifyCommand
                        (pointIndex data p row ColumnId_PathgridPosZ)
                        (clampToCell p (int_add (mZ point) offsetZ))))
      | None => None
      end
  | None => None
  end.

(** [applyPosition].  [None] stands for an undefined conversion of the
    pending offset or a read outside [mPoints]. *)
Definition applyPosition (data : Collection) (p : Pathgrid)
           (commands : CommandMacro) : option CommandMacro :=
  match getPathgridSource data p with
  | Some source =>
      let '(x, y, z) := mSelectedNode p in
      match double_to_int x, double_to_int y, double_to_int z with
      | Some offsetX, Some offsetY, Some offsetZ =>
          fold_left
            (applyPosition_round data p source offsetX offsetY offsetZ)
            (mSelected p) (Some commands)
      | _, _, _ => None
      end
  | None => Some commands
  end.

(** *** The calls an owner can make on the instance *)

Inductive Action :=
| ActSelection (op : SelectionOp)
| ActUpdate
| ActRecreateGeometry
| ActRemoveGeometry
| ActMoveSelected (offset : Vec3d)
| ActRemoveNodes.

Definition runAction (data : Collection) (p : Pathgrid) (a : Action)
  : Pathgrid :=
  match a with
  | ActSelection op => runSelectionOp data p op
  | ActUpdate => update data p
  | ActRecreateGeometry => recreateGeometry p
  | ActRemoveGeometry => removeGeometry p
  | ActMoveSelected offset => moveSelected p offset
  | ActRemoveNodes => snd (applyRemoveNodes data p [])
  end.

(** A history of calls; the document may be a different one at each
    call, since other parties edit it in between. *)
Definition runActions (steps : list (Collection * Action)) (p : Pathgrid)
  : Pathgrid :=
  fold_left (fun p step => runAction (fst step) p (snd step)) steps p.

(** The object as the constructor leaves it: nothing selected, no
    indicator, a rebuild requested, no drawable yet. *)
Definition newPathgrid (pathgridId : string) (interior : bool) : Pathgrid :=
  recreateGeometry
    {| mId := pathgridId; mInterior := interior; mSelected := [];
       mConnectionIndicator := false; mConnectionNode := 0;
       mChangeGeometry := true; mRemoveGeometry := false;
       mSelectedNode := Vec3_zero;
       mPathgridGeode := []; mSelectedGeode := [];
       mPathgridGeometry := None; mSelectedGeometry := None;
       mNextHandle := 0 |}.

End CSVRender.

(** ** The command contract of the document layer *)

Module Document.

Import CSMWorld.

Fixpoint insertRow (edges : list Edge) (row : nat) (blank : Edge)
  : list Edge :=
  match row, edges with
  | O, _ => blank :: edges
  | S row', e :: edges' => e :: insertRow edges' row' blank
  | S _, [] => []
  end.

Fixpoint setCell (edges : list Edge) (row : nat) (column : ColumnId)
         (value : Z) : list Edge :=
  match edges, row with
  | [], _ => []
  | e :: edges', O =>
      match column with
      | ColumnId_PathgridEdge0 => {| mV0 := value; mV1 := mV1 e |} :: edges'
      | ColumnId_PathgridEdge1 => {| mV0 := mV0 e; mV1 := value |} :: edges'
      | _ => e :: edges'
      end
  | e :: edges', S row' => e :: setCell edges' row' column value
  end.

Fixpoint deleteRow (edges : list Edge) (row : nat) : list Edge :=
  match edges, row with
  | [], _ => []
  | _ :: edges', O => edges'
  | e :: edges', S row' => e :: deleteRow edges' row'
  end.

(** Modelled from the spec: the commands live in the document layer,
    outside these sources.  Per the spec's interface, [appendRow]
    inserts a new sub-row at the row index, [setCell] sets one scalar
    field and [deleteRow] removes a sub-row, shifting the later ones
    down.  Only the effect on the edges sub-table is kept; [blank] is
    the content of a newly inserted row. *)
Definition redo (blank : Edge) (edges : list Edge) (c : Command)
  : list Edge :=
  match c with
  | AddNestedCommand _ row ColumnId_PathgridEdges =>
      if row <? 0 then edges else insertRow edges (Z.to_nat row) blank
  | DeleteNestedCommand _ row ColumnId_PathgridEdges =>
      if row <? 0 then edges else deleteRow edges (Z.to_nat row)
  | ModifyCommand index value =>
      match qParentColumn index with
      | ColumnId_PathgridEdges =>
          if qRow index <? 0 then edges
          else setCell edges (Z.to_nat (qRow index)) (qColumn index) value
      | _ => edges
      end
  | _ => edges
  end.

(** Committing a batch runs its commands in the order they were pushed. *)
Definition commit (blank : Edge) (edges : list Edge)
           (commands : CommandMacro) : list Edge :=
  fold_left (redo blank) commands edges.

End Document.

(** ** Vocabulary of the statements *)

Module Spec.

Import CSMWorld SceneUtil CSVRender.

(** The highlight drawable an operation started on [p] builds for the
    resulting instance [q]: a new object holding the wireframe of [q]'s
    highlight nodes, or nothing when the graph does not resolve. *)
Definition freshHighlight (data : Collection) (p q : CSVRender.Pathgrid)
  : option Drawable :=
  match getPathgridSource data p with
  | Some source =>
      Some {| handle := mNextHandle p;
              payload := createPathgridSelectedWireframe source
                           (highlightNodes q) |}
  | None => None
  end.

(** Membership of a node in a selection, as a boolean. *)
Definition selected (sel : NodeList) (i : Z) : bool :=
  if in_dec Z.eq_dec i sel then true else false.

(** The list [toggleSelected] leaves: [node] erased at its first
    position when it is there, pushed at the back when it is not. *)
Definition toggled (sel : NodeList) (node : Z) : NodeList :=
  match find sel node with
  | Some pos => erase sel pos
  | None => sel ++ [node]
  end.

(** The selection each operation leaves behind. *)
Definition selectionAfter (data : Collection) (p : CSVRender.Pathgrid)
           (op : SelectionOp) : NodeList :=
  match op with
  | OpSelectAll =>
      match getPathgridSource data p with
      | Some source => ushort_loop (pointCount source)
      | None => []
      end
  | OpToggle node => toggled (mSelected p) node
  | OpInvert =>
      match getPathgridSource data p with
      | Some source =>
          filter (fun i => negb (selected (mSelected p) i))
                 (ushort_loop (pointCount source))
      | None => []
      end
  | OpClear => []
  | OpSetConnectionIndicator _ | OpResetMove => mSelected p
  end.

(** Some row of the graph holds the directed pair [(from, to)]. *)
Definition hasEdge (source : CSMWorld.Pathgrid) (from to : Z) : bool :=
  existsb (fun e => (mV0 e =? from) && (mV1 e =? to)) (mEdges source).

(** The three commands that store one direction at [row]: append the
    row, set its from-column, set its to-column. *)
Definition edgeRowCommands (data : Collection) (p : CSVRender.Pathgrid)
           (row from to : Z) : list Command :=
  [ AddNestedCommand (mId p) row ColumnId_PathgridEdges;
    ModifyCommand (edgeIndex data p row ColumnId_PathgridEdge0) from;
    ModifyCommand (edgeIndex data p row ColumnId_PathgridEdge1) to ].

(** The drawables a geode holds when it holds exactly the one the
    instance points to. *)
Definition attached (d : option Drawable) : Geode :=
  match d with
  | Some d => [d]
  | None => []
  end.

(** Each geode holds the drawable its pointer names and nothing else. *)
Definition geodesConsistent (p : CSVRender.Pathgrid) : Prop :=
  mPathgridGeode p = attached (mPathgridGeometry p) /\
  mSelectedGeode p = attached (mSelectedGeometry p).

(** The row at which [edgeExists] stops for [(from, to)]: it holds the
    pair and no earlier row does. *)
Definition firstEdgeRow (source : CSMWorld.Pathgrid) (from to : Z) (row : nat)
  : Prop :=
  (exists e, nth_error (mEdges source) row = Some e /\
             mV0 e = from /\ mV1 e = to) /\
  forall k e, (k < row)%nat -> nth_error (mEdges source) k = Some e ->
              ~ (mV0 e = from /\ mV1 e = to).

(** [row] is what [edgeExists] finds for the directed pair of the nodes
    at the positions [i] and [j] of the selection. *)
Definition pairRow (source : CSMWorld.Pathgrid) (sel : NodeList)
           (i j : nat) (row : Z) : Prop :=
  exists a b, nth_error sel i = Some a /\ nth_error sel j = Some b /\
              edgeExists source a b = row /\ row <> -1.

(** The commands [addEdge] pushes for the pair [(node1, node2)] on a
    graph whose rows are numbered from its own edge count. *)
Definition addEdgeCommands (data : Collection) (p : CSVRender.Pathgrid)
           (source : CSMWorld.Pathgrid) (node1 node2 : Z) : list Command :=
  let row := Z.of_nat (List.length (mEdges source)) in
  (if hasEdge source node1 node2 then []
   else edgeRowCommands data p row node1 node2)
  ++ (if hasEdge source node2 node1 then []
      else edgeRowCommands data p
             (if hasEdge source node1 node2 then row else row + 1)
             node2 node1).

(** The three commands that rewrite the coordinates of the point at
    [row]. *)
Definition moveRowCommands (data : Collection) (p : CSVRender.Pathgrid)
           (row x y z : Z) : list Command :=
  [ ModifyCommand (pointIndex data p row ColumnId_PathgridPosX) x;
    ModifyCommand (pointIndex data p row ColumnId_PathgridPosY) y;
    ModifyCommand (pointIndex data p row ColumnId_PathgridPosZ) z ].

(** The pending offset of the selection as [applyPosition] reads it:
    the three coordinates converted to [int], when all three
    conversions are defined. *)
Definition pendingOffset (p : CSVRender.Pathgrid) : option (Z * Z * Z) :=
  let '(x, y, z) := mSelectedNode p in
  match double_to_int x, double_to_int y, double_to_int z with
  | Some offsetX, Some offsetY, Some offsetZ =>
      Some (offsetX, offsetY, offsetZ)
  | _, _, _ => None
  end.

(** [node] is a row of the points of the graph. *)
Definition validNode (source : CSMWorld.Pathgrid) (node : Z) : Prop :=
  0 <= node < Z.of_nat (List.length (mPoints source)).

(** The commands that move the point at row [node] by an offset and
    clamp the result; nothing when the graph has no such row. *)
Definition positionCommands (data : Collection) (p : CSVRender.Pathgrid)
           (source : CSMWorld.Pathgrid) (offset : Z * Z * Z) (node : Z)
  : list Command :=
  let '(offsetX, offsetY, offsetZ) := offset in
  match pointAt source node with
  | Some point =>
      moveRowCommands data p node
        (clampToCell p (int_add (mX point) offsetX))
        (clampToCell p (int_add (mY point) offsetY))
        (clampToCell p (int_add (mZ point) offsetZ))
  | None => []
  end.

(** The commands that write back to the point at row [node] its own
    coordinates, clamped. *)
Definition unmovedCommands (data : Collection) (p : CSVRender.Pathgrid)
           (source : CSMWorld.Pathgrid) (node : Z) : list Command :=
  match pointAt source node with
  | Some point =>
      moveRowCommands data p node (clampToCell p (mX point))
        (clampToCell p (mY point)) (clampToCell p (mZ point))
  | None => []
  end.

(** The coordinates of a point are [int]s. *)
Definition intPoint (point : Point) : Prop :=
  -2147483648 <= mX point <= 2147483647 /\
  -2147483648 <= mY point <= 2147483647 /\
  -2147483648 <= mZ point <= 2147483647.

(** The value a [ModifyCommand] writes; [None] for the other commands. *)
Definition writtenValue (c : Command) : option Z :=
  match c with
  | ModifyCommand _ value => Some value
  | _ => None
  end.

(** The row an [AddNestedCommand] appends; [None] for the others. *)
Definition appendedRow (c : Command) : option Z :=
  match c with
  | AddNestedCommand _ row _ => Some row
  | _ => None
  end.

(** One delete-row command per row, in the order of the list. *)
Definition deleteRowCommands (p : CSVRender.Pathgrid)
           (parentColumn : ColumnId) (rows : list Z) : list Command :=
  map (fun row => DeleteNestedCommand (mId p) row parentColumn) rows.

End Spec.

(** ** Sample instances *)

Module Examples.

Import CSMWorld SceneUtil CSVRender.

(** Two points, no edge. *)
Definition graph2 : CSMWorld.Pathgrid :=
  {| mPoints := [ {| mX := 0; mY := 0; mZ := 0 |};
                  {| mX := 10; mY := 10; mZ := 10 |} ];
     mEdges := [] |}.

(** Three points, the edge 0 -> 1 stored in one direction only. *)
Definition graph3 : CSMWorld.Pathgrid :=
  {| mPoints := [ {| mX := 0; mY := 0; mZ := 0 |};
                  {| mX := 10; mY := 10; mZ := 10 |};
                  {| mX := 20; mY := 0; mZ := 5 |} ];
     mEdges := [ {| mV0 := 0; mV1 := 1 |} ] |}.

Definition cellId : string := "cell"%string.

(** A document in which the pathgrid of the cell resolves. *)
Definition present (g : CSMWorld.Pathgrid) : Collection :=
  [ {| recordId := cellId; isDeleted := false; get := g |} ].

(** The same record, soft-deleted. *)
Definition deleted (g : CSMWorld.Pathgrid) : Collection :=
  [ {| recordId := cellId; isDeleted := true; get := g |} ].

(** A document without the pathgrid. *)
Definition absent : Collection := [].

(** An exterior instance with a given selection and no drawable. *)
Definition withSelection (sel : NodeList) : CSVRender.Pathgrid :=
  set_mChangeGeometry (set_mSelected (newPathgrid cellId false) sel) false.

(** An instance whose two drawables were built on a first tick, and on
    which a rebuild is requested again. *)
Definition built : CSVRender.Pathgrid :=
  recreateGeometry (update (present graph2) (newPathgrid cellId false)).

(** Four edges over three points: 0 -> 1, 1 -> 0, 1 -> 2, 2 -> 0. *)
Definition graph4 : CSMWorld.Pathgrid :=
  {| mPoints := mPoints graph3;
     mEdges := [ {| mV0 := 0; mV1 := 1 |}; {| mV0 := 1; mV1 := 0 |};
                 {| mV0 := 1; mV1 := 2 |}; {| mV0 := 2; mV1 := 0 |} ] |}.

(** Three points; the self loop 1 -> 1 and the edge 0 -> 1 are each
    stored twice. *)
Definition graphLoops : CSMWorld.Pathgrid :=
  {| mPoints := mPoints graph3;
     mEdges := [ {| mV0 := 1; mV1 := 1 |}; {| mV0 := 0; mV1 := 1 |};
                 {| mV0 := 1; mV1 := 1 |}; {| mV0 := 0; mV1 := 1 |} ] |}.

(** An interior instance with a given selection and no drawable. *)
Definition interiorWithSelection (sel : NodeList) : CSVRender.Pathgrid :=
  set_mChangeGeometry (set_mSelected (newPathgrid cellId true) sel) false.

End Examples.

Import CSMWorld SceneUtil CSVRender Spec.

(** * Properties *)

(** ** Spatial clamp *)

(** C8. [clampToCell] returns its argument unchanged on an interior
    instance; on an exterior one it returns the argument clamped into
    [0, cellExtent], where the extent is 8192.  In particular an interior
    clamp of -50 is -50, and an exterior clamp sends -50 to 0 and 9000 to
    8192. *)
Theorem clampToCell_spec :
  forall (p : CSVRender.Pathgrid) (v : Z),
    clampToCell p v
      = (if mInterior p then v else Z.max 0 (Z.min v ESM.REAL_SIZE)) /\
    ESM.REAL_SIZE = 8192 /\
    clampToCell p (-50) = (if mInterior p then -50 else 0) /\
    clampToCell p 9000 = (if mInterior p then 9000 else 8192).
Proof.
  intros p v. unfold clampToCell, ESM.REAL_SIZE.
  destruct (mInterior p); repeat split.
  destruct (Z.gtb_spec v 8192); destruct (Z.ltb_spec v 0); lia.
Qed.

(** ** Facts about [find] and [erase] *)

Section FindErase.

Variable node : Z.

Lemma find_None_iff (l : NodeList) : find l node = None <-> ~ In node l.
Proof.
  induction l as [|x l IH]; simpl; [tauto|].
  destruct (Z.eqb_spec x node) as [->|Hne].
  - split; [discriminate | intros H; exfalso; apply H; now left].
  - destruct (find l node) as [pos|]; simpl; split; intros H.
    + discriminate.
    + exfalso. apply H. right.
      destruct (in_dec Z.eq_dec node l) as [Hin|Hnin]; [exact Hin|].
      apply IH in Hnin. discriminate.
    + intros [Heq|Hin]; [congruence|]. now apply (proj1 IH).
    + reflexivity.
Qed.

Lemma find_In (l : NodeList) (pos : nat) :
  find l node = Some pos -> In node l.
Proof.
  intros H. destruct (in_dec Z.eq_dec node l) as [Hin|Hnin]; [exact Hin|].
  apply find_None_iff in Hnin. congruence.
Qed.

(** Searching a list extended by [node] itself finds the new last
    element when [node] was not there before. *)
Lemma find_push_back (l : NodeList) :
  ~ In node l -> find (l ++ [node]) node = Some (List.length l).
Proof.
  induction l as [|x l IH]; simpl; intros Hnin.
  - now rewrite Z.eqb_refl.
  - destruct (Z.eqb_spec x node) as [->|Hne]; [tauto|].
    rewrite IH by tauto. reflexivity.
Qed.

Lemma erase_push_back (l : NodeList) (x : Z) :
  erase (l ++ [x]) (List.length l) = l.
Proof. induction l as [|y l IH]; simpl; congruence. Qed.

(** Erasing at the found position removes the first occurrence. *)
Lemma erase_find_Permutation (l : NodeList) (pos : nat) :
  find l node = Some pos -> Permutation (node :: erase l pos) l.
Proof.
  revert pos. induction l as [|x l IH]; simpl; intros pos H; [discriminate|].
  destruct (Z.eqb_spec x node) as [->|Hne].
  - injection H as <-. reflexivity.
  - destruct (find l node) as [pos'|]; [|discriminate].
    injection H as <-. simpl.
    rewrite perm_swap. now rewrite (IH pos').
Qed.

Lemma erase_find_remove (l : NodeList) (pos : nat) :
  NoDup l -> find l node = Some pos ->
  erase l pos = remove Z.eq_dec node l.
Proof.
  revert pos. induction l as [|x l IH]; simpl; intros pos Hnd H;
    [discriminate|].
  inversion Hnd as [|? ? Hnin Hnd']; subst.
  destruct (Z.eqb_spec x node) as [->|Hne].
  - injection H as <-.
    destruct (Z.eq_dec node node) as [_|Hc]; [|congruence].
    symmetry. now apply notin_remove.
  - destruct (find l node) as [pos'|]; [|discriminate].
    injection H as <-.
    destruct (Z.eq_dec node x) as [Hc|_]; [congruence|].
    simpl. f_equal. now apply IH.
Qed.

End FindErase.

Lemma erase_In (l : NodeList) (pos : nat) (x : Z) :
  In x (erase l pos) -> In x l.
Proof.
  revert pos. induction l as [|y l IH]; intros [|pos] Hin; simpl in *;
    try tauto.
  destruct Hin as [->|Hin]; [now left | right; eauto].
Qed.

Lemma erase_NoDup (l : NodeList) (pos : nat) : NoDup l -> NoDup (erase l pos).
Proof.
  intros Hnd. revert pos.
  induction Hnd as [|x l Hnin Hnd IH]; intros [|pos]; simpl.
  - constructor.
  - constructor.
  - exact Hnd.
  - constructor; [|apply IH].
    intros Hin. apply Hnin. eapply erase_In; eassumption.
Qed.

(** ** What the geometry helpers leave alone *)

Lemma getPathgridSource_mId (data : Collection) (p q : CSVRender.Pathgrid) :
  mId p = mId q -> getPathgridSource data p = getPathgridSource data q.
Proof. unfold getPathgridSource. now intros ->. Qed.

Lemma removeSelectedGeometry_fields (p : CSVRender.Pathgrid) :
  let q := removeSelectedGeometry p in
  mId q = mId p /\ mSelected q = mSelected p /\
  mConnectionIndicator q = mConnectionIndicator p /\
  mConnectionNode q = mConnectionNode p /\
  mChangeGeometry q = mChangeGeometry p /\
  mRemoveGeometry q = mRemoveGeometry p /\
  mPathgridGeometry q = mPathgridGeometry p /\
  mSelectedGeometry q = None /\
  mNextHandle q = mNextHandle p /\
  highlightNodes q = highlightNodes p.
Proof.
  unfold removeSelectedGeometry, highlightNodes.
  destruct (mSelectedGeometry p) eqn:E; simpl; repeat split; auto.
Qed.

Lemma createSelectedGeometry_source_fields
      (p : CSVRender.Pathgrid) (source : CSMWorld.Pathgrid) :
  let q := createSelectedGeometry_source p source in
  mId q = mId p /\ mSelected q = mSelected p /\
  mConnectionIndicator q = mConnectionIndicator p /\
  mConnectionNode q = mConnectionNode p /\
  mChangeGeometry q = mChangeGeometry p /\
  mRemoveGeometry q = mRemoveGeometry p /\
  mPathgridGeometry q = mPathgridGeometry p /\
  mSelectedGeometry q
    = Some {| handle := mNextHandle p;
              payload := createPathgridSelectedWireframe source
                           (highlightNodes p) |} /\
  mNextHandle q = S (mNextHandle p) /\
  highlightNodes q = highlightNodes p.
Proof.
  unfold createSelectedGeometry_source, removeSelectedGeometry, highlightNodes.
  destruct (mSelectedGeometry p) eqn:E; simpl; repeat split; auto.
Qed.

Lemma createSelectedGeometry_fields (data : Collection)
      (p : CSVRender.Pathgrid) :
  let q := createSelectedGeometry data p in
  mId q = mId p /\ mSelected q = mSelected p /\
  mConnectionIndicator q = mConnectionIndicator p /\
  mConnectionNode q = mConnectionNode p /\
  mChangeGeometry q = mChangeGeometry p /\
  mRemoveGeometry q = mRemoveGeometry p /\
  mPathgridGeometry q = mPathgridGeometry p /\
  mSelectedGeometry q
    = match getPathgridSource data p with
      | Some source =>
          Some {| handle := mNextHandle p;
                  payload := createPathgridSelectedWireframe source
                               (highlightNodes p) |}
      | None => None
      end /\
  highlightNodes q = highlightNodes p.
Proof.
  unfold createSelectedGeometry.
  destruct (getPathgridSource data p) as [source|].
  - pose proof (createSelectedGeometry_source_fields p source) as H.
    simpl in H. tauto.
  - pose proof (removeSelectedGeometry_fields p) as H. simpl in H. tauto.
Qed.

(** ** The loops of [selectAll] and [invertSelected] *)

Lemma selectAll_loop (l : list Z) (p : CSVRender.Pathgrid) :
  fold_left (fun p i => set_mSelected p (mSelected p ++ [i])) l p
  = set_mSelected p (mSelected p ++ l).
Proof.
  revert p. induction l as [|i l IH]; intros p; simpl.
  - rewrite app_nil_r. now destruct p.
  - rewrite IH. unfold set_mSelected; simpl. now rewrite <- app_assoc.
Qed.

Lemma invertSelected_loop (temp : NodeList) (l : list Z)
      (p : CSVRender.Pathgrid) :
  fold_left (fun p i =>
               match find temp i with
               | None => set_mSelected p (mSelected p ++ [i])
               | Some _ => p
               end) l p
  = set_mSelected p
      (mSelected p ++ filter (fun i => negb (selected temp i)) l).
Proof.
  revert p. induction l as [|i l IH]; intros p; simpl.
  - rewrite app_nil_r. now destruct p.
  - rewrite IH. unfold selected at 2.
    destruct (find temp i) as [pos|] eqn:E.
    + apply find_In in E.
      destruct (in_dec Z.eq_dec i temp) as [_|Hc]; [|tauto]. reflexivity.
    + apply find_None_iff in E.
      destruct (in_dec Z.eq_dec i temp) as [Hc|_]; [tauto|].
      unfold set_mSelected; simpl. now rewrite <- app_assoc.
Qed.

Lemma selectAll_unfold (data : Collection) (p : CSVRender.Pathgrid) :
  selectAll data p
  = match getPathgridSource data p with
    | Some source =>
        createSelectedGeometry_source
          (set_mSelected p (ushort_loop (pointCount source))) source
    | None => removeSelectedGeometry (set_mSelected p [])
    end.
Proof.
  unfold selectAll.
  rewrite (getPathgridSource_mId data (set_mSelected p []) p eq_refl).
  destruct (getPathgridSource data p); [|reflexivity].
  now rewrite selectAll_loop.
Qed.

Lemma invertSelected_unfold (data : Collection) (p : CSVRender.Pathgrid) :
  invertSelected data p
  = match getPathgridSource data p with
    | Some source =>
        createSelectedGeometry_source
          (set_mSelected p
             (filter (fun i => negb (selected (mSelected p) i))
                     (ushort_loop (pointCount source)))) source
    | None => removeSelectedGeometry (set_mSelected p [])
    end.
Proof.
  unfold invertSelected.
  rewrite (getPathgridSource_mId data (set_mSelected p []) p eq_refl).
  destruct (getPathgridSource data p); [|reflexivity].
  now rewrite invertSelected_loop.
Qed.

Lemma mSelected_toggleSelected (data : Collection) (p : CSVRender.Pathgrid)
      (node : Z) :
  mSelected (toggleSelected data p node)
  = match find (mSelected p) node with
    | Some pos => erase (mSelected p) pos
    | None => mSelected p ++ [node]
    end.
Proof.
  unfold toggleSelected.
  destruct (find (mSelected p) node);
    match goal with
    | |- mSelected (createSelectedGeometry ?d ?q) = _ =>
        destruct (createSelectedGeometry_fields d q) as (_ & -> & _)
    end; reflexivity.
Qed.

(** ** The per-tick update *)

(** A tick with neither flag set changes nothing. *)
Lemma update_clean (data : Collection) (p : CSVRender.Pathgrid) :
  mChangeGeometry p = false -> mRemoveGeometry p = false -> update data p = p.
Proof.
  intros Hc Hr. unfold update. rewrite Hr, Hc.
  destruct p; simpl in *; subst; reflexivity.
Qed.

(** C1 (the behaviour of the code).  When a rebuild is requested, no
    teardown is requested and the graph does not resolve, the tick leaves
    the persisted-graph drawable and the highlight drawable exactly as
    they were and ends with both flags cleared: the teardown that
    [createGeometry] requests is reset by the same tick, so no drawable
    is removed and no teardown stays pending; a further tick changes
    nothing. *)
Theorem update_rebuild_absent_graph :
  forall (data : Collection) (p : CSVRender.Pathgrid),
    mChangeGeometry p = true ->
    mRemoveGeometry p = false ->
    getPathgridSource data p = None ->
    let q := update data p in
    mPathgridGeometry q = mPathgridGeometry p /\
    mSelectedGeometry q = mSelectedGeometry p /\
    mPathgridGeode q = mPathgridGeode p /\
    mSelectedGeode q = mSelectedGeode p /\
    mChangeGeometry q = false /\
    mRemoveGeometry q = false /\
    update data q = q.
Proof.
  intros data p Hc Hr Hsrc q.
  assert (Hq : q = set_mRemoveGeometry (set_mChangeGeometry p false) false).
  { unfold q, update, createGeometry. rewrite Hr, Hc, Hsrc. reflexivity. }
  rewrite Hq. repeat split.
Qed.

(** The instance of C1 at which the drawables are visibly left behind:
    both were built on a first tick, the record is then soft-deleted and
    a rebuild requested. *)
Lemma update_rebuild_absent_graph_built :
  let q := update (Examples.deleted Examples.graph2) Examples.built in
  mPathgridGeometry q
    = Some {| handle := 0%nat;
              payload := createPathgridGeometry Examples.graph2 |} /\
  mSelectedGeometry q
    = Some {| handle := 1%nat;
              payload := createPathgridSelectedWireframe Examples.graph2 [] |} /\
  mRemoveGeometry q = false /\
  update (Examples.deleted Examples.graph2) q = q.
Proof.
  destruct (update_rebuild_absent_graph
              (Examples.deleted Examples.graph2) Examples.built
              eq_refl eq_refl eq_refl)
    as (H1 & H2 & _ & _ & _ & H6 & H7).
  cbv zeta. rewrite H1, H2, H6, H7. repeat split.
Defined.

(** ** Selection state *)

(** What one selection operation does to the members of the instance. *)
Lemma runSelectionOp_fields
      (data : Collection) (p : CSVRender.Pathgrid) (op : SelectionOp) :
  let q := runSelectionOp data p op in
  mId q = mId p /\
  mSelected q = selectionAfter data p op /\
  mChangeGeometry q = mChangeGeometry p /\
  mRemoveGeometry q = mRemoveGeometry p /\
  mPathgridGeometry q = mPathgridGeometry p /\
  mSelectedGeometry q
  = match op with
    | OpClear => None
    | OpResetMove =>
        if mConnectionIndicator p then freshHighlight data p q
        else mSelectedGeometry p
    | _ => freshHighlight data p q
    end.
Proof.
  intros q. subst q. unfold freshHighlight, toggled.
  destruct op as [|node| | |node|]; simpl.
  - rewrite selectAll_unfold.
    destruct (getPathgridSource data p) as [source|].
    + destruct (createSelectedGeometry_source_fields
                  (set_mSelected p (ushort_loop (pointCount source))) source)
        as (Hi & Hs & _ & _ & Hc & Hr & Hp & Hg & _ & Hh).
      rewrite Hi, Hs, Hc, Hr, Hp, Hg, Hh. auto 6.
    + destruct (removeSelectedGeometry_fields (set_mSelected p []))
        as (Hi & Hs & _ & _ & Hc & Hr & Hp & Hg & _).
      rewrite Hi, Hs, Hc, Hr, Hp, Hg. auto 6.
  - unfold toggleSelected, toggled.
    destruct (find (mSelected p) node) as [pos|];
      match goal with
      | |- context [createSelectedGeometry data ?p'] =>
          destruct (createSelectedGeometry_fields data p')
            as (Hi & Hs & _ & _ & Hc & Hr & Hp & Hg & Hh);
          rewrite Hi, Hs, Hc, Hr, Hp, Hg, Hh;
          rewrite (getPathgridSource_mId data p' p eq_refl)
      end; auto 6.
  - rewrite invertSelected_unfold.
    destruct (getPathgridSource data p) as [source|].
    + match goal with
      | |- context [createSelectedGeometry_source ?p' source] =>
          destruct (createSelectedGeometry_source_fields p' source)
            as (Hi & Hs & _ & _ & Hc & Hr & Hp & Hg & _ & Hh)
      end.
      rewrite Hi, Hs, Hc, Hr, Hp, Hg, Hh. auto 6.
    + destruct (removeSelectedGeometry_fields (set_mSelected p []))
        as (Hi & Hs & _ & _ & Hc & Hr & Hp & Hg & _).
      rewrite Hi, Hs, Hc, Hr, Hp, Hg. auto 6.
  - unfold clearSelected.
    destruct (removeSelectedGeometry_fields (set_mSelected p []))
      as (Hi & Hs & _ & _ & Hc & Hr & Hp & Hg & _).
    rewrite Hi, Hs, Hc, Hr, Hp, Hg. auto 6.
  - unfold setupConnectionIndicator.
    match goal with
    | |- context [createSelectedGeometry data ?p'] =>
        destruct (createSelectedGeometry_fields data p')
          as (Hi & Hs & _ & _ & Hc & Hr & Hp & Hg & Hh);
        rewrite Hi, Hs, Hc, Hr, Hp, Hg, Hh;
        rewrite (getPathgridSource_mId data p' p eq_refl)
    end; auto 6.
  - unfold resetMove. simpl.
    destruct (mConnectionIndicator p); [|auto 6].
    match goal with
    | |- context [createSelectedGeometry data ?p'] =>
        destruct (createSelectedGeometry_fields data p')
          as (Hi & Hs & _ & _ & Hc & Hr & Hp & Hg & Hh);
        rewrite Hi, Hs, Hc, Hr, Hp, Hg, Hh;
        rewrite (getPathgridSource_mId data p' p eq_refl)
    end; auto 6.
Qed.

(** C2 (amended).  Every mutating selection operation leaves both dirty
    flags as they were and updates the highlight drawable itself, inside
    the operation: clear removes it; selectAll, toggle, invert and
    setConnectionIndicator replace it by a newly built highlight of the
    resulting selection when the graph resolves and remove it when it
    does not; resetMove does the same when a connection indicator was
    set and otherwise leaves the drawable untouched. *)
Theorem selection_ops_rebuild_eagerly :
  forall (data : Collection) (p : CSVRender.Pathgrid) (op : SelectionOp),
    let q := runSelectionOp data p op in
    mChangeGeometry q = mChangeGeometry p /\
    mRemoveGeometry q = mRemoveGeometry p /\
    mSelectedGeometry q
    = match op with
      | OpClear => None
      | OpResetMove =>
          if mConnectionIndicator p then freshHighlight data p q
          else mSelectedGeometry p
      | _ => freshHighlight data p q
      end.
Proof.
  intros data p op q.
  destruct (runSelectionOp_fields data p op) as (_ & _ & Hc & Hr & _ & Hg).
  auto.
Qed.

(** C2 as stated fails: toggling a node while the graph resolves leaves
    the rebuild flag unset and puts a newly built highlight drawable in
    place at once. *)
Lemma toggleSelected_builds_at_once :
  let p := Examples.withSelection [] in
  let q := toggleSelected (Examples.present Examples.graph2) p 0 in
  mChangeGeometry q = false /\
  mSelectedGeometry p = None /\
  mSelectedGeometry q
    = Some {| handle := 0%nat;
              payload := createPathgridSelectedWireframe Examples.graph2 [0] |} /\
  mSelectedGeode q
    = [ {| handle := 0%nat;
           payload := createPathgridSelectedWireframe Examples.graph2 [0] |} ].
Proof. repeat split. Qed.

(** C3 (amended).  On a duplicate-free selection, toggling the same node
    twice restores the exact prior selection when the node was not
    selected; when it was selected, the contents are restored but the
    node ends up last in the order. *)
Theorem toggleSelected_twice :
  forall (data : Collection) (p : CSVRender.Pathgrid) (node : Z),
    NoDup (mSelected p) ->
    let q := toggleSelected data (toggleSelected data p node) node in
    mSelected q
      = (if selected (mSelected p) node
         then remove Z.eq_dec node (mSelected p) ++ [node]
         else mSelected p) /\
    Permutation (mSelected q) (mSelected p).
Proof.
  intros data p node Hnd q. subst q.
  rewrite !mSelected_toggleSelected. unfold selected.
  destruct (find (mSelected p) node) as [pos|] eqn:E.
  - pose proof (find_In _ _ _ E) as Hin.
    destruct (in_dec Z.eq_dec node (mSelected p)) as [_|Hc]; [|tauto].
    rewrite (erase_find_remove _ _ _ Hnd E).
    assert (Hnin : ~ In node (remove Z.eq_dec node (mSelected p)))
      by apply remove_In.
    apply find_None_iff in Hnin. rewrite Hnin. split; [reflexivity|].
    rewrite <- (erase_find_remove _ _ _ Hnd E).
    rewrite <- Permutation_cons_append. now apply erase_find_Permutation.
  - pose proof (proj1 (find_None_iff _ _) E) as Hnin.
    destruct (in_dec Z.eq_dec node (mSelected p)) as [Hc|_]; [tauto|].
    rewrite (find_push_back _ _ Hnin), erase_push_back. auto.
Qed.

(** C3 at both kinds of input: node 1 of the selection [1; 2] moves to
    the back, node 3 (not selected) leaves the selection as it was. *)
Lemma toggleSelected_twice_both_cases :
  let data := Examples.present Examples.graph3 in
  let p := Examples.withSelection [1; 2] in
  mSelected (toggleSelected data (toggleSelected data p 1) 1) = [2; 1] /\
  mSelected (toggleSelected data (toggleSelected data p 3) 3) = [1; 2].
Proof.
  assert (Hnd : NoDup (mSelected (Examples.withSelection [1; 2]))).
  { repeat constructor; simpl; intuition discriminate. }
  split.
  - exact (proj1 (toggleSelected_twice
                    (Examples.present Examples.graph3)
                    (Examples.withSelection [1; 2]) 1 Hnd)).
  - exact (proj1 (toggleSelected_twice
                    (Examples.present Examples.graph3)
                    (Examples.withSelection [1; 2]) 3 Hnd)).
Defined.

(** C3 as stated fails: toggling the selected node 1 of [1; 2] twice
    gives [2; 1], not the prior order. *)
Lemma toggleSelected_twice_reorders :
  let data := Examples.present Examples.graph3 in
  let p := Examples.withSelection [1; 2] in
  let q := toggleSelected data (toggleSelected data p 1) 1 in
  mSelected p = [1; 2] /\ mSelected q = [2; 1] /\ mSelected q <> mSelected p.
Proof. repeat split. discriminate. Qed.

(** C4 (amended).  A selection operation that finds the graph absent
    removes the highlight drawable (resetMove only when a connection
    indicator was set) and touches neither the persisted-graph drawable
    nor the dirty flags.  The selection is empty afterwards for
    selectAll, invert and clear; toggle still erases or appends its node,
    and setConnectionIndicator and resetMove leave the selection as it
    was. *)
Theorem selection_ops_absent_graph :
  forall (data : Collection) (p : CSVRender.Pathgrid) (op : SelectionOp),
    getPathgridSource data p = None ->
    let q := runSelectionOp data p op in
    mSelected q
      = match op with
        | OpSelectAll | OpInvert | OpClear => []
        | OpToggle node => toggled (mSelected p) node
        | OpSetConnectionIndicator _ | OpResetMove => mSelected p
        end /\
    mSelectedGeometry q
      = match op with
        | OpResetMove =>
            if mConnectionIndicator p then None else mSelectedGeometry p
        | _ => None
        end /\
    mPathgridGeometry q = mPathgridGeometry p /\
    mChangeGeometry q = mChangeGeometry p /\
    mRemoveGeometry q = mRemoveGeometry p.
Proof.
  intros data p op Hsrc q.
  destruct (runSelectionOp_fields data p op) as (_ & Hs & Hc & Hr & Hp & Hg).
  fold q in Hs, Hc, Hr, Hp, Hg.
  rewrite Hs, Hg, Hc, Hr, Hp. unfold selectionAfter, freshHighlight.
  rewrite Hsrc. destruct op; repeat split.
Qed.

(** C4 at an instance whose graph is absent: toggling node 3 into an
    empty selection leaves [3] selected. *)
Lemma selection_ops_absent_graph_toggle :
  mSelected (toggleSelected Examples.absent (Examples.withSelection []) 3)
  = [3].
Proof.
  exact (proj1 (selection_ops_absent_graph
                  Examples.absent (Examples.withSelection []) (OpToggle 3)
                  eq_refl)).
Defined.

(** C4 as stated fails: with the graph absent, toggle leaves a non-empty
    selection and requests no teardown, and setConnectionIndicator keeps
    the selection it found. *)
Lemma toggleSelected_absent_keeps_selection :
  let p := Examples.withSelection [] in
  let q := toggleSelected Examples.absent p 3 in
  let r := setupConnectionIndicator Examples.absent
             (Examples.withSelection [1; 2]) 1 in
  getPathgridSource Examples.absent p = None /\
  mSelected q = [3] /\ mSelected q <> [] /\
  mRemoveGeometry q = false /\
  mSelected r = [1; 2].
Proof. repeat split. discriminate. Qed.

(** ** Inverting the selection *)

Lemma selected_true_iff (sel : NodeList) (i : Z) :
  selected sel i = true <-> In i sel.
Proof.
  unfold selected. destruct (in_dec Z.eq_dec i sel); split; auto.
  discriminate.
Qed.

Lemma selected_filter (f : Z -> bool) (l : list Z) (i : Z) :
  In i l -> selected (filter f l) i = f i.
Proof.
  intros Hin. destruct (f i) eqn:E.
  - apply selected_true_iff, filter_In. auto.
  - destruct (selected (filter f l) i) eqn:E'; [|reflexivity].
    apply selected_true_iff, filter_In in E'. destruct E'. congruence.
Qed.

Lemma ushort_loop_In (bound i : Z) :
  In i (ushort_loop bound) <-> 0 <= i < bound.
Proof.
  unfold ushort_loop. rewrite in_map_iff. split.
  - intros (k & <- & Hk). apply in_seq in Hk. lia.
  - intros Hi. exists (Z.to_nat i). split; [lia|]. apply in_seq. lia.
Qed.

Lemma seq_ascending (start len : nat) :
  StronglySorted Z.lt (map Z.of_nat (seq start len)).
Proof.
  revert start. induction len as [|len IH]; intros start; simpl.
  - constructor.
  - constructor; [apply IH|].
    apply Forall_forall. intros x Hx. apply in_map_iff in Hx.
    destruct Hx as (k & <- & Hk). apply in_seq in Hk. lia.
Qed.

Lemma ushort_loop_ascending (bound : Z) :
  StronglySorted Z.lt (ushort_loop bound).
Proof. apply seq_ascending. Qed.

Lemma filter_ascending (f : Z -> bool) (l : list Z) :
  StronglySorted Z.lt l -> StronglySorted Z.lt (filter f l).
Proof.
  induction 1 as [|x l Hs IH Hall]; simpl; [constructor|].
  destruct (f x); [|exact IH].
  constructor; [exact IH|].
  apply Forall_forall. intros y Hy. apply filter_In in Hy.
  rewrite Forall_forall in Hall. now apply Hall.
Qed.

(** Two strictly ascending lists with the same members are the same list. *)
Lemma ascending_ext (l1 l2 : list Z) :
  StronglySorted Z.lt l1 -> StronglySorted Z.lt l2 ->
  (forall x, In x l1 <-> In x l2) -> l1 = l2.
Proof.
  intros H1. revert l2.
  induction H1 as [|x l1 Hs1 IH Hall1]; intros l2 H2 Hext.
  - destruct l2 as [|y l2]; [reflexivity|].
    exfalso. apply (proj2 (Hext y)). now left.
  - inversion H2 as [|y l2' Hs2 Hall2]; subst.
    + exfalso. apply (proj1 (Hext x)). now left.
    + rewrite Forall_forall in Hall1, Hall2.
      assert (Hxy : x = y).
      { destruct (proj1 (Hext x) (or_introl eq_refl)) as [Hyx|Hin2];
          [congruence|].
        destruct (proj2 (Hext y) (or_introl eq_refl)) as [Hxy|Hin1];
          [congruence|].
        specialize (Hall1 _ Hin1). specialize (Hall2 _ Hin2). lia. }
      subst y. f_equal. apply IH; [exact Hs2|].
      intros z. split; intros Hz.
      * destruct (proj1 (Hext z) (or_intror Hz)) as [Heq|Hin]; [|exact Hin].
        subst z. specialize (Hall1 _ Hz). lia.
      * destruct (proj2 (Hext z) (or_intror Hz)) as [Heq|Hin]; [|exact Hin].
        subst z. specialize (Hall2 _ Hz). lia.
Qed.

Lemma mSelected_invertSelected (data : Collection) (p : CSVRender.Pathgrid) :
  mId (invertSelected data p) = mId p /\
  mSelected (invertSelected data p) = selectionAfter data p OpInvert.
Proof.
  destruct (runSelectionOp_fields data p OpInvert) as (Hi & Hs & _).
  auto.
Qed.

(** C7 (amended).  With the graph resolving and unchanged between the
    calls, inverting twice yields the valid indices that were in the
    original selection, in ascending order; this is the original
    selection exactly when that selection was strictly ascending and held
    valid indices only. *)
Theorem invertSelected_twice :
  forall (data : Collection) (p : CSVRender.Pathgrid)
         (source : CSMWorld.Pathgrid),
    getPathgridSource data p = Some source ->
    let q := invertSelected data (invertSelected data p) in
    mSelected q
      = filter (selected (mSelected p)) (ushort_loop (pointCount source)) /\
    (mSelected q = mSelected p <->
     StronglySorted Z.lt (mSelected p) /\
     Forall (fun i => 0 <= i < pointCount source) (mSelected p)).
Proof.
  intros data p source Hsrc q.
  assert (Hq : mSelected q
               = filter (selected (mSelected p))
                        (ushort_loop (pointCount source))).
  { subst q.
    destruct (mSelected_invertSelected data p) as (Hi1 & Hs1).
    destruct (mSelected_invertSelected data (invertSelected data p))
      as (_ & Hs2).
    rewrite Hs2. unfold selectionAfter.
    rewrite (getPathgridSource_mId data _ p Hi1), Hsrc.
    rewrite Hs1. unfold selectionAfter. rewrite Hsrc.
    apply filter_ext_in. intros i Hi.
    rewrite selected_filter by exact Hi. apply negb_involutive. }
  split; [exact Hq|]. rewrite Hq. split.
  - intros Heq. rewrite <- Heq. split.
    + apply filter_ascending, ushort_loop_ascending.
    + apply Forall_forall. intros i Hi. apply filter_In in Hi.
      now apply ushort_loop_In.
  - intros (Hsorted & Hvalid). rewrite Forall_forall in Hvalid.
    apply ascending_ext.
    + apply filter_ascending, ushort_loop_ascending.
    + exact Hsorted.
    + intros i. rewrite filter_In, ushort_loop_In, selected_true_iff.
      split; [tauto|]. intros Hi. split; [now apply Hvalid | exact Hi].
Qed.

(** C7 on a graph of three points: the ascending selection [0; 1]
    inverts to [2] and back to [0; 1]. *)
Lemma invertSelected_twice_ascending :
  let data := Examples.present Examples.graph3 in
  let p := Examples.withSelection [0; 1] in
  mSelected (invertSelected data p) = [2] /\
  mSelected (invertSelected data (invertSelected data p)) = [0; 1].
Proof.
  split; [reflexivity|].
  exact (proj1 (invertSelected_twice
                  (Examples.present Examples.graph3)
                  (Examples.withSelection [0; 1])
                  Examples.graph3 eq_refl)).
Defined.

(** C7 as stated fails: on a graph of two points the selection [1; 0]
    inverts to the empty selection and then to [0; 1]. *)
Lemma invertSelected_twice_sorts :
  let data := Examples.present Examples.graph2 in
  let p := Examples.withSelection [1; 0] in
  let q := invertSelected data (invertSelected data p) in
  mSelected p = [1; 0] /\ mSelected q = [0; 1] /\ mSelected q <> mSelected p.
Proof. repeat split. discriminate. Qed.

(** ** Adding edges *)

Lemma to_int_small (z : Z) : -2147483648 <= z <= 2147483647 -> to_int z = z.
Proof.
  intros H. unfold to_int.
  rewrite Z.mod_small by lia. lia.
Qed.

(** While every row index fits an [int], [edgeExists] answers [-1]
    exactly when no row holds the pair. *)
Lemma edgeExists_from_none (i : nat) (edges : list Edge) (node1 node2 : Z) :
  Z.of_nat i + Z.of_nat (List.length edges) <= 2147483648 ->
  (edgeExists_from i edges node1 node2 =? -1)
  = negb (existsb (fun e => (mV0 e =? node1) && (mV1 e =? node2)) edges).
Proof.
  revert i. induction edges as [|e edges IH]; intros i Hi; simpl in *.
  - reflexivity.
  - destruct ((mV0 e =? node1) && (mV1 e =? node2)); simpl.
    + unfold int_of_size. rewrite to_int_small by lia.
      apply Z.eqb_neq. lia.
    + apply IH. lia.
Qed.

Lemma edgeExists_none (source : CSMWorld.Pathgrid) (node1 node2 : Z) :
  Z.of_nat (List.length (mEdges source)) < INT_MAX ->
  (edgeExists source node1 node2 =? -1) = negb (hasEdge source node1 node2).
Proof.
  intros H. unfold edgeExists, hasEdge, INT_MAX in *.
  apply edgeExists_from_none. lia.
Qed.

(** [addEdge] as a function of which directions the graph holds. *)
Lemma addEdge_unfold (data : Collection) (p : CSVRender.Pathgrid)
      (commands : CommandMacro) (source : CSMWorld.Pathgrid)
      (node1 node2 : Z) :
  Z.of_nat (List.length (mEdges source)) < INT_MAX ->
  let row := Z.of_nat (List.length (mEdges source)) in
  addEdge data p commands source node1 node2
  = commands
    ++ (if hasEdge source node1 node2 then []
        else edgeRowCommands data p row node1 node2)
    ++ (if hasEdge source node2 node1 then []
        else edgeRowCommands data p
               (if hasEdge source node1 node2 then row else row + 1)
               node2 node1).
Proof.
  intros H row. unfold addEdge.
  rewrite !edgeExists_none by exact H.
  assert (Hrow : int_of_size (List.length (mEdges source)) = row).
  { unfold int_of_size, INT_MAX in *. apply to_int_small. lia. }
  rewrite Hrow.
  assert (Hincr : int_incr row = row + 1).
  { unfold int_incr, INT_MAX in *. apply to_int_small. lia. }
  rewrite Hincr.
  unfold edgeRowCommands, push.
  destruct (hasEdge source node1 node2), (hasEdge source node2 node1);
    simpl; rewrite ?app_nil_r, <- ?app_assoc; reflexivity.
Qed.

(** C5.  For each direction the graph lacks, [addEdge] pushes exactly
    three commands, in the order append-row, set-from-column,
    set-to-column; the second direction's row is one greater than the
    first direction's when the first append happened.  The batch thus
    grows by 6 commands when both directions are missing, by 3 when
    exactly one exists, and by none when both exist. *)
Theorem addEdge_commands :
  forall (data : Collection) (p : CSVRender.Pathgrid)
         (commands : CommandMacro) (source : CSMWorld.Pathgrid) (a b : Z),
    Z.of_nat (List.length (mEdges source)) < INT_MAX ->
    let row := Z.of_nat (List.length (mEdges source)) in
    let first :=
      if hasEdge source a b then [] else edgeRowCommands data p row a b in
    let row' := if hasEdge source a b then row else row + 1 in
    let second :=
      if hasEdge source b a then [] else edgeRowCommands data p row' b a in
    addEdge data p commands source a b = commands ++ first ++ second /\
    List.length (first ++ second)
    = match hasEdge source a b, hasEdge source b a with
      | false, false => 6%nat
      | true, true => 0%nat
      | _, _ => 3%nat
      end.
Proof.
  intros data p commands source a b H row first row' second.
  split.
  - subst first second row'. now apply addEdge_unfold.
  - subst first second.
    destruct (hasEdge source a b), (hasEdge source b a); reflexivity.
Qed.

(** C5 on the two-point graph without edges: adding the edge (0, 1)
    appends row 0 as 0 -> 1 and row 1 as 1 -> 0; on the graph that
    already stores 0 -> 1, only 1 -> 0 is appended, at row 1. *)
Lemma addEdge_commands_examples :
  let d2 := Examples.present Examples.graph2 in
  let d3 := Examples.present Examples.graph3 in
  let p := Examples.withSelection [] in
  addEdge d2 p [] Examples.graph2 0 1
    = edgeRowCommands d2 p 0 0 1 ++ edgeRowCommands d2 p 1 1 0 /\
  addEdge d3 p [] Examples.graph3 0 1 = edgeRowCommands d3 p 1 1 0.
Proof.
  split.
  - exact (proj1 (addEdge_commands
                    (Examples.present Examples.graph2)
                    (Examples.withSelection []) [] Examples.graph2 0 1
                    eq_refl)).
  - exact (proj1 (addEdge_commands
                    (Examples.present Examples.graph3)
                    (Examples.withSelection []) [] Examples.graph3 0 1
                    eq_refl)).
Defined.

(** *** The effect of the commands on the edge rows *)

Lemma insertRow_end (edges : list Edge) (blank : Edge) :
  Document.insertRow edges (List.length edges) blank = edges ++ [blank].
Proof. induction edges as [|e edges IH]; simpl; congruence. Qed.

Lemma setCell_middle (l r : list Edge) (e : Edge) (column : ColumnId)
      (value : Z) :
  Document.setCell (l ++ e :: r) (List.length l) column value
  = l ++ Document.setCell [e] 0 column value ++ r.
Proof.
  induction l as [|x l IH]; simpl.
  - destruct column; reflexivity.
  - now rewrite IH.
Qed.

(** Committing the three commands of one direction at the end of the
    table appends that directed pair. *)
Lemma commit_edgeRowCommands (blank : Edge) (data : Collection)
      (p : CSVRender.Pathgrid) (edges : list Edge) (from to : Z) :
  Document.commit blank edges
    (edgeRowCommands data p (Z.of_nat (List.length edges)) from to)
  = edges ++ [ {| mV0 := from; mV1 := to |} ].
Proof.
  unfold Document.commit, edgeRowCommands. simpl.
  assert (Hneg : (Z.of_nat (List.length edges) <? 0) = false)
    by (apply Z.ltb_ge; lia).
  rewrite Hneg, Nat2Z.id, insertRow_end.
  rewrite (setCell_middle edges [] blank). simpl.
  rewrite (setCell_middle edges [] _). reflexivity.
Qed.

(** C10.  When the graph resolves and holds no edge (n, n), [applyEdge]
    with both endpoints equal to n pushes six commands: the three that
    store n -> n at the first new row and the same three again at the
    next row.  The second check reads the graph as it was before the
    batch, so it cannot see the first append; committed, the batch adds
    two identical (n, n) rows. *)
Theorem applyEdge_self_loop :
  forall (data : Collection) (p : CSVRender.Pathgrid)
         (commands : CommandMacro) (source : CSMWorld.Pathgrid)
         (n : Z) (blank : Edge),
    getPathgridSource data p = Some source ->
    hasEdge source n n = false ->
    Z.of_nat (List.length (mEdges source)) < INT_MAX ->
    let row := Z.of_nat (List.length (mEdges source)) in
    let new := edgeRowCommands data p row n n
               ++ edgeRowCommands data p (row + 1) n n in
    applyEdge data p commands n n = commands ++ new /\
    List.length new = 6%nat /\
    Document.commit blank (mEdges source) new
    = mEdges source ++ [ {| mV0 := n; mV1 := n |}; {| mV0 := n; mV1 := n |} ].
Proof.
  intros data p commands source n blank Hsrc Hnone Hsize row new.
  split; [|split].
  - unfold applyEdge. rewrite Hsrc.
    rewrite addEdge_unfold by exact Hsize. now rewrite Hnone.
  - reflexivity.
  - subst new. unfold Document.commit. rewrite fold_left_app.
    fold (Document.commit blank (mEdges source)
            (edgeRowCommands data p row n n)).
    subst row. rewrite commit_edgeRowCommands.
    set (edges' := mEdges source ++ [ {| mV0 := n; mV1 := n |} ]).
    assert (Hrow : Z.of_nat (List.length (mEdges source)) + 1
                   = Z.of_nat (List.length edges')).
    { unfold edges'. rewrite length_app. simpl. lia. }
    rewrite Hrow.
    fold (Document.commit blank edges'
            (edgeRowCommands data p (Z.of_nat (List.length edges')) n n)).
    rewrite commit_edgeRowCommands. unfold edges'.
    now rewrite <- app_assoc.
Qed.

(** C10 on the two-point graph without edges: connecting node 1 to
    itself leaves two rows 1 -> 1 after the commit. *)
Lemma applyEdge_self_loop_example :
  let data := Examples.present Examples.graph2 in
  let p := Examples.withSelection [] in
  applyEdge data p [] 1 1
    = edgeRowCommands data p 0 1 1 ++ edgeRowCommands data p 1 1 1 /\
  Document.commit {| mV0 := 0; mV1 := 0 |} (mEdges Examples.graph2)
                  (applyEdge data p [] 1 1)
    = [ {| mV0 := 1; mV1 := 1 |}; {| mV0 := 1; mV1 := 1 |} ].
Proof.
  destruct (applyEdge_self_loop
              (Examples.present Examples.graph2)
              (Examples.withSelection []) [] Examples.graph2 1
              {| mV0 := 0; mV1 := 0 |} eq_refl eq_refl eq_refl)
    as (H1 & _ & H3).
  cbv zeta. rewrite H1. split; [reflexivity | exact H3].
Defined.

(** ** Removing nodes *)

Lemma push_deletes (id : string) (parentColumn : ColumnId) (rows : list Z)
      (commands : CommandMacro) :
  fold_left (fun commands row =>
               push commands (DeleteNestedCommand id row parentColumn))
            rows commands
  = commands
    ++ map (fun row => DeleteNestedCommand id row parentColumn) rows.
Proof.
  revert commands. induction rows as [|row rows IH]; intros commands; simpl.
  - now rewrite app_nil_r.
  - rewrite IH. unfold push. now rewrite <- app_assoc.
Qed.

Lemma insert_greater_Permutation (x : Z) (l : list Z) :
  Permutation (insert_greater x l) (x :: l).
Proof.
  induction l as [|y l IH]; simpl; [reflexivity|].
  destruct (y >? x); [|reflexivity].
  rewrite IH. apply perm_swap.
Qed.

Lemma sort_greater_Permutation (l : list Z) : Permutation (sort_greater l) l.
Proof.
  induction l as [|x l IH]; simpl; [reflexivity|].
  rewrite insert_greater_Permutation. now constructor.
Qed.

Lemma insert_greater_sorted (x : Z) (l : list Z) :
  StronglySorted Z.ge l -> StronglySorted Z.ge (insert_greater x l).
Proof.
  induction 1 as [|y l Hs IH Hall]; simpl.
  - repeat constructor.
  - destruct (Z.gtb_spec y x) as [Hgt|Hle].
    + constructor; [exact IH|].
      apply Forall_forall. intros z Hz.
      apply (Permutation_in _ (insert_greater_Permutation x l)) in Hz.
      rewrite Forall_forall in Hall.
      destruct Hz as [<-|Hz]; [lia | now apply Hall].
    + constructor; [now constructor|].
      rewrite Forall_forall in Hall.
      constructor; [lia|]. apply Forall_forall. intros z Hz.
      specialize (Hall _ Hz). lia.
Qed.

Lemma sort_greater_sorted (l : list Z) : StronglySorted Z.ge (sort_greater l).
Proof.
  induction l as [|x l IH]; simpl; [constructor|].
  now apply insert_greater_sorted.
Qed.

(** Without duplicates, non-increasing is strictly decreasing. *)
Lemma sorted_NoDup_strict (l : list Z) :
  StronglySorted Z.ge l -> NoDup l -> StronglySorted Z.gt l.
Proof.
  induction 1 as [|x l Hs IH Hall]; intros Hnd; [constructor|].
  inversion Hnd as [|? ? Hnin Hnd']; subst.
  constructor; [now apply IH|].
  rewrite Forall_forall in Hall. apply Forall_forall. intros y Hy.
  specialize (Hall _ Hy).
  assert (x <> y) by (intros ->; tauto). lia.
Qed.

Lemma sort_greater_strict (l : list Z) :
  NoDup l -> StronglySorted Z.gt (sort_greater l).
Proof.
  intros Hnd. apply sorted_NoDup_strict; [apply sort_greater_sorted|].
  eapply Permutation_NoDup; [|exact Hnd].
  symmetry. apply sort_greater_Permutation.
Qed.

(** C6.  On a duplicate-free selection, [applyRemoveNodes] pushes, when
    the graph resolves, exactly one delete-row command per selected
    index, the rows in strictly descending order; when the graph is
    absent it pushes nothing.  In both cases the selection is empty
    afterwards and the highlight drawable is gone. *)
Theorem applyRemoveNodes_commands :
  forall (data : Collection) (p : CSVRender.Pathgrid)
         (commands : CommandMacro),
    NoDup (mSelected p) ->
    let rows := sort_greater (mSelected p) in
    let result := applyRemoveNodes data p commands in
    fst result
      = match getPathgridSource data p with
        | Some _ =>
            commands ++ deleteRowCommands p ColumnId_PathgridPoints rows
        | None => commands
        end /\
    Permutation rows (mSelected p) /\
    StronglySorted Z.gt rows /\
    List.length (deleteRowCommands p ColumnId_PathgridPoints rows)
      = List.length (mSelected p) /\
    mSelected (snd result) = [] /\
    mSelectedGeometry (snd result) = None.
Proof.
  intros data p commands Hnd rows result.
  assert (Hperm : Permutation rows (mSelected p))
    by apply sort_greater_Permutation.
  repeat split.
  - subst result. unfold applyRemoveNodes.
    destruct (getPathgridSource data p); simpl; [|reflexivity].
    apply push_deletes.
  - exact Hperm.
  - now apply sort_greater_strict.
  - unfold deleteRowCommands. rewrite length_map.
    now apply Permutation_length.
  - subst result. unfold applyRemoveNodes.
    destruct (getPathgridSource data p); simpl;
      match goal with
      | |- mSelected (clearSelected ?q) = _ =>
          unfold clearSelected;
          destruct (removeSelectedGeometry_fields (set_mSelected q []))
            as (_ & -> & _)
      end; reflexivity.
  - subst result. unfold applyRemoveNodes.
    destruct (getPathgridSource data p); simpl;
      match goal with
      | |- mSelectedGeometry (clearSelected ?q) = _ =>
          unfold clearSelected;
          destruct (removeSelectedGeometry_fields (set_mSelected q []))
            as (_ & _ & _ & _ & _ & _ & _ & -> & _)
      end; reflexivity.
Qed.

(** C6 on the selection [0; 2; 1] of a three-point graph: the rows are
    deleted as 2, 1, 0 and nothing stays selected; with the graph absent
    the batch is unchanged and the selection is cleared all the same. *)
Lemma applyRemoveNodes_commands_example :
  let p := Examples.withSelection [0; 2; 1] in
  let present := applyRemoveNodes (Examples.present Examples.graph3) p [] in
  let absent := applyRemoveNodes Examples.absent p [] in
  fst present = deleteRowCommands p ColumnId_PathgridPoints [2; 1; 0] /\
  mSelected (snd present) = [] /\
  fst absent = [] /\
  mSelected (snd absent) = [].
Proof.
  assert (Hnd : NoDup (mSelected (Examples.withSelection [0; 2; 1]))).
  { repeat constructor; simpl; intuition discriminate. }
  destruct (applyRemoveNodes_commands
              (Examples.present Examples.graph3)
              (Examples.withSelection [0; 2; 1]) [] Hnd)
    as (H1 & _ & _ & _ & H5 & _).
  destruct (applyRemoveNodes_commands
              Examples.absent (Examples.withSelection [0; 2; 1]) [] Hnd)
    as (H1' & _ & _ & _ & H5' & _).
  cbv zeta. rewrite H1, H5, H1', H5'. repeat split.
Defined.

(** ** Removing edges *)

Lemma removeEdges_body_in_bounds (source : CSMWorld.Pathgrid)
      (sel : NodeList) (i j : nat) (rows : RowSet) :
  (i < List.length sel)%nat -> (j < List.length sel)%nat ->
  exists rows', removeEdges_body source sel i j rows = Some rows'.
Proof.
  intros Hi Hj. unfold removeEdges_body.
  destruct (nth_error sel i) as [si|] eqn:Ei;
    [|apply nth_error_None in Ei; lia].
  destruct (nth_error sel j) as [sj|] eqn:Ej;
    [|apply nth_error_None in Ej; lia].
  eexists. reflexivity.
Qed.

(** A read at the index [mSelected.size()] is outside the vector. *)
Lemma removeEdges_body_out_of_bounds (source : CSMWorld.Pathgrid)
      (sel : NodeList) (j : nat) (rows : RowSet) :
  removeEdges_body source sel (List.length sel) j rows = None.
Proof.
  unfold removeEdges_body.
  assert (E : nth_error sel (List.length sel) = None)
    by (apply nth_error_None; lia).
  now rewrite E.
Qed.

(** The inner loop started above [i] reads inside the vector only. *)
Lemma removeEdges_inner_in_bounds (source : CSMWorld.Pathgrid)
      (sel : NodeList) (i j : nat) (rows : RowSet) :
  (i < j)%nat ->
  exists rows', removeEdges_inner source sel i j rows = Some rows'.
Proof.
  funelim (removeEdges_inner source sel i j rows); intros Hij.
  - eexists. reflexivity.
  - match goal with
    | IH : (_ < _)%nat -> exists r, removeEdges_inner _ _ _ _ _ = Some r
      |- _ => apply IH; lia
    end.
  - destruct (removeEdges_body_in_bounds source sel i j rowsToRemove)
      as (r & Hr); [lia | lia | congruence].
Qed.

(** At the last round of the outer loop, [i = mSelected.size()], the
    inner loop starts at [j = i + 1] and its condition fails at once. *)
Lemma removeEdges_inner_last_round (source : CSMWorld.Pathgrid)
      (sel : NodeList) (i j : nat) (rows : RowSet) :
  (List.length sel <= j)%nat ->
  removeEdges_inner source sel i j rows = Some rows.
Proof.
  funelim (removeEdges_inner source sel i j rows); intros Hj;
    [reflexivity | lia | lia].
Qed.

Lemma removeEdges_outer_in_bounds (source : CSMWorld.Pathgrid)
      (sel : NodeList) (i : nat) (rows : RowSet) :
  exists rows', removeEdges_outer source sel i rows = Some rows'.
Proof.
  funelim (removeEdges_outer source sel i rows).
  - eexists. reflexivity.
  - assumption.
  - destruct (removeEdges_inner_in_bounds source sel i (i + 1) rowsToRemove)
      as (r & Hr); [lia | congruence].
Qed.

(** C9.  The pair scan of [applyRemoveEdges], whose outer index runs up
    to and including the size of the selection, never reads a selection
    element out of bounds: the operation always completes.  A read at
    the outer index equal to the size would be out of bounds, but the
    inner loop, started at [j = i + 1], ends there without running its
    body. *)
Theorem applyRemoveEdges_in_bounds :
  forall (data : Collection) (p : CSVRender.Pathgrid)
         (commands : CommandMacro),
    (exists commands', applyRemoveEdges data p commands = Some commands') /\
    (forall (source : CSMWorld.Pathgrid) (rows : RowSet),
        removeEdges_inner source (mSelected p)
          (List.length (mSelected p)) (List.length (mSelected p) + 1)%nat rows
        = Some rows) /\
    (forall (source : CSMWorld.Pathgrid) (j : nat) (rows : RowSet),
        removeEdges_body source (mSelected p)
          (List.length (mSelected p)) j rows = None).
Proof.
  intros data p commands. split; [|split].
  - unfold applyRemoveEdges.
    destruct (getPathgridSource data p) as [source|]; [|eauto].
    destruct (removeEdges_outer_in_bounds source (mSelected p) 0 [])
      as (rows & ->).
    eauto.
  - intros source rows. apply removeEdges_inner_last_round. lia.
  - intros source j rows. apply removeEdges_body_out_of_bounds.
Qed.

(** ** Invariants of the instance *)

Lemma ascending_NoDup (l : list Z) : StronglySorted Z.lt l -> NoDup l.
Proof.
  induction 1 as [|x l Hs IH Hall]; constructor; [|exact IH].
  intros Hin. rewrite Forall_forall in Hall. specialize (Hall _ Hin). lia.
Qed.

(** Every selection operation keeps the selection free of duplicates. *)
Theorem runSelectionOp_NoDup :
  forall (data : Collection) (p : CSVRender.Pathgrid) (op : SelectionOp),
    NoDup (mSelected p) -> NoDup (mSelected (runSelectionOp data p op)).
Proof.
  intros data p op Hnd.
  destruct (runSelectionOp_fields data p op) as (_ & -> & _).
  unfold selectionAfter, toggled.
  destruct op as [|node| | |node|]; try exact Hnd; try constructor.
  - destruct (getPathgridSource data p); [|constructor].
    apply ascending_NoDup, ushort_loop_ascending.
  - destruct (find (mSelected p) node) as [pos|] eqn:E.
    + now apply erase_NoDup.
    + apply find_None_iff in E.
      apply Permutation_NoDup with (l := node :: mSelected p).
      * apply Permutation_cons_append.
      * now constructor.
  - destruct (getPathgridSource data p); [|constructor].
    apply ascending_NoDup, filter_ascending, ushort_loop_ascending.
Qed.

(** A duplicate-free selection, toggled: node 2 joins [0; 1]. *)
Lemma runSelectionOp_NoDup_example :
  NoDup (mSelected (runSelectionOp (Examples.present Examples.graph3)
                      (Examples.withSelection [0; 1]) (OpToggle 2))).
Proof.
  apply (runSelectionOp_NoDup (Examples.present Examples.graph3)
           (Examples.withSelection [0; 1]) (OpToggle 2)).
  repeat constructor; simpl; intuition discriminate.
Defined.

(** [selectAll] on a resolving graph of N points, N below 2^16, selects
    0, 1, ..., N - 1 in this order. *)
Theorem selectAll_all_rows :
  forall (data : Collection) (p : CSVRender.Pathgrid)
         (source : CSMWorld.Pathgrid),
    getPathgridSource data p = Some source ->
    Z.of_nat (List.length (mPoints source)) < 65536 ->
    mSelected (selectAll data p)
    = map Z.of_nat (seq 0 (List.length (mPoints source))).
Proof.
  intros data p source Hsrc Hsize.
  destruct (runSelectionOp_fields data p OpSelectAll) as (_ & Hs & _).
  simpl in Hs. rewrite Hs. unfold selectionAfter. rewrite Hsrc.
  unfold ushort_loop, pointCount, to_ushort.
  rewrite Z.mod_small by lia. now rewrite Nat2Z.id.
Qed.

(** On the three-point graph, [selectAll] selects [0; 1; 2]. *)
Lemma selectAll_all_rows_example :
  mSelected (selectAll (Examples.present Examples.graph3)
                       (Examples.withSelection [2]))
  = [0; 1; 2].
Proof.
  exact (selectAll_all_rows (Examples.present Examples.graph3)
           (Examples.withSelection [2]) Examples.graph3 eq_refl eq_refl).
Defined.

(** A second tick with no dirty-marking in between replaces nothing: it
    returns the instance the first tick left. *)
Theorem update_idempotent :
  forall (data : Collection) (p : CSVRender.Pathgrid),
    update data (update data p) = update data p.
Proof.
  intros data p. apply update_clean; reflexivity.
Qed.


(** ** More on the spatial clamp *)

Lemma clampToCell_in_cell (p : CSVRender.Pathgrid) (v : Z) :
  mInterior p = true \/ 0 <= clampToCell p v <= 8192.
Proof.
  unfold clampToCell, ESM.REAL_SIZE.
  destruct (mInterior p); [now left|]. right.
  destruct (Z.gtb_spec v 8192); destruct (Z.ltb_spec v 0); lia.
Qed.

(** Clamping is idempotent and monotone, and on an exterior instance
    every clamped value lies in the cell. *)
Theorem clampToCell_idempotent_monotone :
  forall (p : CSVRender.Pathgrid) (v w : Z),
    clampToCell p (clampToCell p v) = clampToCell p v /\
    (v <= w -> clampToCell p v <= clampToCell p w) /\
    (mInterior p = true \/ 0 <= clampToCell p v <= ESM.REAL_SIZE).
Proof.
  intros p v w. unfold clampToCell, ESM.REAL_SIZE.
  destruct (mInterior p); [auto|].
  repeat split;
    repeat match goal with
           | |- context [?a >? ?b] => destruct (Z.gtb_spec a b)
           | |- context [?a <? ?b] => destruct (Z.ltb_spec a b)
           end; try lia; right; lia.
Qed.

(** ** What the geometry helpers keep *)

Lemma removeDrawable_attached (d : Drawable) : removeDrawable [d] d = [].
Proof. simpl. now rewrite Nat.eqb_refl. Qed.

Lemma removeSelectedGeometry_keeps (p : CSVRender.Pathgrid) :
  let q := removeSelectedGeometry p in
  mInterior q = mInterior p /\ mSelectedNode q = mSelectedNode p /\
  mPathgridGeode q = mPathgridGeode p /\
  (mSelectedGeode p = attached (mSelectedGeometry p) ->
   mSelectedGeode q = []).
Proof.
  unfold removeSelectedGeometry.
  destruct (mSelectedGeometry p) as [d|] eqn:E; simpl; repeat split; auto.
  intros ->. apply removeDrawable_attached.
Qed.

Lemma removePathgridGeometry_keeps (p : CSVRender.Pathgrid) :
  let q := removePathgridGeometry p in
  mId q = mId p /\ mInterior q = mInterior p /\
  mSelected q = mSelected p /\ mSelectedNode q = mSelectedNode p /\
  mConnectionIndicator q = mConnectionIndicator p /\
  mConnectionNode q = mConnectionNode p /\
  mSelectedGeode q = mSelectedGeode p /\
  mSelectedGeometry q = mSelectedGeometry p /\
  mPathgridGeometry q = None /\
  mNextHandle q = mNextHandle p /\
  (mPathgridGeode p = attached (mPathgridGeometry p) ->
   mPathgridGeode q = []).
Proof.
  unfold removePathgridGeometry.
  destruct (mPathgridGeometry p) as [d|] eqn:E; simpl; repeat split; auto.
  intros ->. apply removeDrawable_attached.
Qed.

Lemma createSelectedGeometry_source_keeps
      (p : CSVRender.Pathgrid) (source : CSMWorld.Pathgrid) :
  let q := createSelectedGeometry_source p source in
  mInterior q = mInterior p /\ mSelectedNode q = mSelectedNode p /\
  mPathgridGeode q = mPathgridGeode p /\
  (mSelectedGeode p = attached (mSelectedGeometry p) ->
   mSelectedGeode q = attached (mSelectedGeometry q)).
Proof.
  unfold createSelectedGeometry_source.
  destruct (removeSelectedGeometry_keeps p) as (Hi & Hn & Hg & Hs).
  simpl. repeat split; auto.
  intros H. rewrite (Hs H). reflexivity.
Qed.

Lemma createSelectedGeometry_keeps (data : Collection)
      (p : CSVRender.Pathgrid) :
  let q := createSelectedGeometry data p in
  mInterior q = mInterior p /\ mSelectedNode q = mSelectedNode p /\
  mPathgridGeode q = mPathgridGeode p /\
  (mSelectedGeode p = attached (mSelectedGeometry p) ->
   mSelectedGeode q = attached (mSelectedGeometry q)).
Proof.
  unfold createSelectedGeometry.
  destruct (getPathgridSource data p) as [source|].
  - apply createSelectedGeometry_source_keeps.
  - destruct (removeSelectedGeometry_keeps p) as (Hi & Hn & Hg & Hs).
    destruct (removeSelectedGeometry_fields p)
      as (_ & _ & _ & _ & _ & _ & _ & Hnone & _).
    simpl. repeat split; auto.
    intros H. rewrite (Hs H), Hnone. reflexivity.
Qed.

(** What one selection operation keeps besides the fields of
    [runSelectionOp_fields]. *)
Lemma runSelectionOp_keeps
      (data : Collection) (p : CSVRender.Pathgrid) (op : SelectionOp) :
  let q := runSelectionOp data p op in
  mInterior q = mInterior p /\
  mPathgridGeode q = mPathgridGeode p /\
  (mSelectedGeode p = attached (mSelectedGeometry p) ->
   mSelectedGeode q = attached (mSelectedGeometry q)) /\
  match op with
  | OpResetMove => mSelectedNode q = Vec3_zero
  | _ => mSelectedNode q = mSelectedNode p
  end.
Proof.
  assert (Hrm : forall l,
             let q := removeSelectedGeometry (set_mSelected p l) in
             mInterior q = mInterior p /\
             mPathgridGeode q = mPathgridGeode p /\
             (mSelectedGeode p = attached (mSelectedGeometry p) ->
              mSelectedGeode q = attached (mSelectedGeometry q)) /\
             mSelectedNode q = mSelectedNode p).
  { intros l.
    destruct (removeSelectedGeometry_keeps (set_mSelected p l))
      as (Hi & Hn & Hg & Hs).
    destruct (removeSelectedGeometry_fields (set_mSelected p l))
      as (_ & _ & _ & _ & _ & _ & _ & Hnone & _).
    simpl in *. repeat split; auto.
    intros H. rewrite (Hs H), Hnone. reflexivity. }
  destruct op as [|node| | |node|]; simpl.
  - rewrite selectAll_unfold.
    destruct (getPathgridSource data p) as [source|]; [|apply Hrm].
    destruct (createSelectedGeometry_source_keeps
                (set_mSelected p (ushort_loop (pointCount source))) source)
      as (Hi & Hn & Hg & Hs).
    simpl in *. auto.
  - unfold toggleSelected.
    destruct (find (mSelected p) node) as [pos|];
      match goal with
      | |- context [createSelectedGeometry data ?p'] =>
          destruct (createSelectedGeometry_keeps data p')
            as (Hi & Hn & Hg & Hs)
      end; simpl in *; auto.
  - rewrite invertSelected_unfold.
    destruct (getPathgridSource data p) as [source|]; [|apply Hrm].
    match goal with
    | |- context [createSelectedGeometry_source ?p' source] =>
        destruct (createSelectedGeometry_source_keeps p' source)
          as (Hi & Hn & Hg & Hs)
    end.
    simpl in *. auto.
  - apply Hrm.
  - unfold setupConnectionIndicator.
    match goal with
    | |- context [createSelectedGeometry data ?p'] =>
        destruct (createSelectedGeometry_keeps data p')
          as (Hi & Hn & Hg & Hs)
    end; simpl in *; auto.
  - unfold resetMove. simpl.
    destruct (mConnectionIndicator p); [|simpl; auto].
    match goal with
    | |- context [createSelectedGeometry data ?p'] =>
        destruct (createSelectedGeometry_keeps data p')
          as (Hi & Hn & Hg & Hs)
    end; simpl in *; auto.
Qed.

(** ** The tick, branch by branch *)

(** A requested teardown wins over a requested rebuild: whatever the
    rebuild flag and whether or not the graph resolves, the tick removes
    both drawables, empties both geodes, clears both flags and leaves
    the selection alone. *)
Theorem update_teardown :
  forall (data : Collection) (p : CSVRender.Pathgrid),
    mRemoveGeometry p = true ->
    geodesConsistent p ->
    let q := update data p in
    mPathgridGeometry q = None /\ mSelectedGeometry q = None /\
    mPathgridGeode q = [] /\ mSelectedGeode q = [] /\
    mChangeGeometry q = false /\ mRemoveGeometry q = false /\
    mSelected q = mSelected p.
Proof.
  intros data p Hr (Hpg & Hsg) q. subst q. unfold update. rewrite Hr.
  destruct (removePathgridGeometry_keeps p)
    as (_ & _ & Hsel & _ & _ & _ & Hsg' & Hsgm & Hnone & _ & Hpg').
  set (p1 := removePathgridGeometry p) in *.
  destruct (removeSelectedGeometry_fields p1)
    as (_ & Hsel2 & _ & _ & _ & _ & Hp2 & Hnone2 & _).
  destruct (removeSelectedGeometry_keeps p1) as (_ & _ & Hpg2 & Hsg2).
  simpl. rewrite Hp2, Hnone, Hnone2, Hpg2, Hsel2, Hsel.
  rewrite (Hpg' Hpg). rewrite Hsg2; [auto 8|].
  now rewrite Hsg', Hsgm.
Qed.

(** A teardown requested on the instance built in the examples. *)
Lemma update_teardown_built :
  let q := update (Examples.present Examples.graph2)
                  (removeGeometry Examples.built) in
  mPathgridGeometry q = None /\ mSelectedGeometry q = None /\
  mPathgridGeode q = [] /\ mSelectedGeode q = [].
Proof.
  destruct (update_teardown (Examples.present Examples.graph2)
              (removeGeometry Examples.built) eq_refl
              (conj eq_refl eq_refl))
    as (H1 & H2 & H3 & H4 & _).
  auto.
Defined.

(** With a rebuild requested, no teardown requested and the graph
    resolving, the tick replaces the persisted-graph drawable by one
    built from the resolved graph and the highlight drawable by one
    built from the highlight nodes; each geode then holds exactly its
    new drawable, both flags are cleared and the selection is
    unchanged. *)
Theorem update_rebuild :
  forall (data : Collection) (p : CSVRender.Pathgrid)
         (source : CSMWorld.Pathgrid),
    mRemoveGeometry p = false ->
    mChangeGeometry p = true ->
    getPathgridSource data p = Some source ->
    geodesConsistent p ->
    let q := update data p in
    let graph := {| handle := mNextHandle p;
                    payload := createPathgridGeometry source |} in
    let highlight := {| handle := S (mNextHandle p);
                        payload := createPathgridSelectedWireframe source
                                     (highlightNodes p) |} in
    mPathgridGeometry q = Some graph /\ mPathgridGeode q = [graph] /\
    mSelectedGeometry q = Some highlight /\ mSelectedGeode q = [highlight] /\
    mChangeGeometry q = false /\ mRemoveGeometry q = false /\
    mSelected q = mSelected p.
Proof.
  intros data p source Hr Hc Hsrc (Hpg & Hsg) q graph highlight.
  subst q. unfold update, createGeometry. rewrite Hr, Hc, Hsrc.
  destruct (removePathgridGeometry_keeps p)
    as (_ & _ & Hsel & _ & Hci & Hcn & Hsg' & Hsgm & _ & Hnext & Hpg').
  set (p1 := removePathgridGeometry p) in *.
  set (p2 := set_pathgridDrawable p1 _ _ _).
  destruct (createSelectedGeometry_source_fields p2 source)
    as (_ & Hs3 & _ & _ & _ & _ & Hp3 & Hg3 & _ & _).
  destruct (createSelectedGeometry_source_keeps p2 source)
    as (_ & _ & Hpg3 & Hsg3).
  assert (Hh : highlightNodes p2 = highlightNodes p).
  { unfold highlightNodes, p2. simpl. now rewrite Hci, Hcn, Hsel. }
  assert (Hgeom : mSelectedGeometry (createSelectedGeometry_source p2 source)
                  = Some highlight).
  { rewrite Hg3, Hh. unfold p2. simpl. now rewrite Hnext. }
  assert (Hgeode : mSelectedGeode (createSelectedGeometry_source p2 source)
                   = [highlight]).
  { rewrite Hsg3 by (unfold p2; simpl; now rewrite Hsg', Hsgm).
    now rewrite Hgeom. }
  remember (createSelectedGeometry_source p2 source) as q3 eqn:Eq3 in *.
  simpl. rewrite Hp3, Hpg3, Hs3, Hgeom, Hgeode. unfold p2. simpl.
  rewrite (Hpg' Hpg), Hnext, Hsel. repeat split.
Qed.

(** The first tick of a new instance over the two-point graph. *)
Lemma update_rebuild_first_tick :
  let q := update (Examples.present Examples.graph2)
                  (newPathgrid Examples.cellId false) in
  mPathgridGeode q
    = [ {| handle := 0%nat;
           payload := createPathgridGeometry Examples.graph2 |} ] /\
  mSelectedGeode q
    = [ {| handle := 1%nat;
           payload := createPathgridSelectedWireframe Examples.graph2 [] |} ].
Proof.
  destruct (update_rebuild (Examples.present Examples.graph2)
              (newPathgrid Examples.cellId false) Examples.graph2
              eq_refl eq_refl eq_refl (conj eq_refl eq_refl))
    as (_ & H2 & _ & H4 & _).
  auto.
Defined.

(** ** Invariants along any history of calls *)

Lemma selectionAfter_NoDup (data : Collection) (p : CSVRender.Pathgrid)
      (op : SelectionOp) :
  NoDup (mSelected p) -> NoDup (selectionAfter data p op).
Proof.
  intros Hnd. unfold selectionAfter, toggled.
  destruct op as [|node| | |node|]; try exact Hnd; try constructor.
  - destruct (getPathgridSource data p); [|constructor].
    apply ascending_NoDup, ushort_loop_ascending.
  - destruct (find (mSelected p) node) as [pos|] eqn:E.
    + now apply erase_NoDup.
    + apply find_None_iff in E.
      apply Permutation_NoDup with (l := node :: mSelected p).
      * apply Permutation_cons_append.
      * now constructor.
  - destruct (getPathgridSource data p); [|constructor].
    apply ascending_NoDup, filter_ascending, ushort_loop_ascending.
Qed.

Lemma update_keeps (data : Collection) (p : CSVRender.Pathgrid) :
  geodesConsistent p ->
  let q := update data p in
  geodesConsistent q /\ mSelected q = mSelected p /\
  mId q = mId p /\ mInterior q = mInterior p.
Proof.
  intros (Hpg & Hsg). unfold update.
  destruct (mRemoveGeometry p) eqn:Hr.
  - destruct (removePathgridGeometry_keeps p)
      as (Hid & Hin & Hsel & _ & _ & _ & Hsg' & Hsgm & Hnone & _ & Hpg').
    set (p1 := removePathgridGeometry p) in *.
    destruct (removeSelectedGeometry_fields p1)
      as (Hid2 & Hsel2 & _ & _ & _ & _ & Hp2 & Hnone2 & _).
    destruct (removeSelectedGeometry_keeps p1) as (Hin2 & _ & Hpg2 & Hsg2).
    unfold geodesConsistent. simpl.
    rewrite Hp2, Hnone, Hnone2, Hpg2, Hsel2, Hsel, Hid2, Hid, Hin2, Hin.
    rewrite (Hpg' Hpg). rewrite Hsg2 by now rewrite Hsg', Hsgm.
    repeat split.
  - destruct (mChangeGeometry p) eqn:Hc;
      [|unfold geodesConsistent; simpl; auto].
    unfold createGeometry.
    destruct (getPathgridSource data p) as [source|];
      [|unfold geodesConsistent; simpl; auto].
    destruct (removePathgridGeometry_keeps p)
      as (Hid & Hin & Hsel & _ & _ & _ & Hsg' & Hsgm & _ & _ & Hpg').
    set (p1 := removePathgridGeometry p) in *.
    set (p2 := set_pathgridDrawable p1 _ _ _).
    destruct (createSelectedGeometry_source_fields p2 source)
      as (Hid3 & Hs3 & _ & _ & _ & _ & Hp3 & _).
    destruct (createSelectedGeometry_source_keeps p2 source)
      as (Hin3 & _ & Hpg3 & Hsg3).
    assert (Hsg4 : mSelectedGeode (createSelectedGeometry_source p2 source)
                   = attached (mSelectedGeometry
                                 (createSelectedGeometry_source p2 source)))
      by (apply Hsg3; unfold p2; simpl; now rewrite Hsg', Hsgm).
    remember (createSelectedGeometry_source p2 source) as q3 eqn:Eq3 in *.
    unfold geodesConsistent. simpl.
    rewrite Hp3, Hpg3, Hs3, Hid3, Hin3, Hsg4.
    unfold p2. simpl. rewrite (Hpg' Hpg), Hsel, Hid, Hin. repeat split.
Qed.

Lemma runAction_keeps (data : Collection) (p : CSVRender.Pathgrid)
      (a : Action) :
  geodesConsistent p -> NoDup (mSelected p) ->
  let q := runAction data p a in
  geodesConsistent q /\ NoDup (mSelected q) /\
  mId q = mId p /\ mInterior q = mInterior p.
Proof.
  intros Hgc Hnd. destruct a as [op| | | |offset|]; unfold runAction; cbv zeta.
  - destruct (runSelectionOp_fields data p op)
      as (Hid & Hsel & _ & _ & Hpgm & _).
    destruct (runSelectionOp_keeps data p op) as (Hin & Hpg & Hsg & _).
    destruct Hgc as (Hpg0 & Hsg0).
    unfold geodesConsistent. rewrite Hpg, Hpgm, Hsel, Hid, Hin.
    repeat split; auto. now apply selectionAfter_NoDup.
  - destruct (update_keeps data p Hgc) as (H1 & H2 & H3 & H4).
    rewrite H2. auto.
  - unfold geodesConsistent in *. simpl. auto.
  - unfold geodesConsistent in *. simpl. auto.
  - unfold geodesConsistent in *. simpl. auto.
  - destruct Hgc as (Hpg0 & Hsg0).
    assert (Hclear : forall p', mSelectedGeode p' = mSelectedGeode p ->
                mSelectedGeometry p' = mSelectedGeometry p ->
                mPathgridGeode p' = mPathgridGeode p ->
                mPathgridGeometry p' = mPathgridGeometry p ->
                mId p' = mId p -> mInterior p' = mInterior p ->
                let q := clearSelected p' in
                geodesConsistent q /\ NoDup (mSelected q) /\
                mId q = mId p /\ mInterior q = mInterior p).
    { intros p' E1 E2 E3 E4 E5 E6. unfold clearSelected.
      destruct (removeSelectedGeometry_fields (set_mSelected p' []))
        as (Hid & Hsel & _ & _ & _ & _ & Hpgm & Hnone & _).
      destruct (removeSelectedGeometry_keeps (set_mSelected p' []))
        as (Hin & _ & Hpg & Hsg).
      simpl in *. unfold geodesConsistent.
      rewrite Hpg, Hpgm, Hnone, Hsel, Hid, Hin, E3, E4, E5, E6.
      rewrite Hsg by now rewrite E1, E2.
      repeat split; auto. constructor. }
    unfold applyRemoveNodes.
    destruct (getPathgridSource data p); simpl; apply Hclear; reflexivity.
Qed.

(** Along every history of calls on a new instance, whatever the
    document holds at each call: each geode holds exactly the drawable
    its pointer names (at most one, never a stale one), the selection
    has no duplicates, and the id and the interior flag are those the
    instance was created with. *)
Theorem history_invariant :
  forall (steps : list (Collection * Action)) (pathgridId : string)
         (interior : bool),
    let p := runActions steps (newPathgrid pathgridId interior) in
    geodesConsistent p /\ NoDup (mSelected p) /\
    mId p = pathgridId /\ mInterior p = interior.
Proof.
  intros steps pathgridId interior.
  assert (Hgen : forall p0,
             geodesConsistent p0 -> NoDup (mSelected p0) ->
             let p := runActions steps p0 in
             geodesConsistent p /\ NoDup (mSelected p) /\
             mId p = mId p0 /\ mInterior p = mInterior p0).
  { induction steps as [|[data a] steps IH]; intros p0 Hgc Hnd; simpl.
    - auto.
    - destruct (runAction_keeps data p0 a Hgc Hnd) as (H1 & H2 & H3 & H4).
      destruct (IH _ H1 H2) as (K1 & K2 & K3 & K4).
      unfold runActions in *. simpl in *.
      rewrite K3, K4, H3, H4. auto. }
  apply Hgen.
  - split; reflexivity.
  - constructor.
Qed.

(** ** Membership after the selection operations *)

(** On a duplicate-free selection, toggling a node flips the membership
    of that node and of no other. *)
Theorem toggleSelected_membership :
  forall (data : Collection) (p : CSVRender.Pathgrid) (node : Z),
    NoDup (mSelected p) ->
    let q := toggleSelected data p node in
    (In node (mSelected q) <-> ~ In node (mSelected p)) /\
    (forall x, x <> node -> (In x (mSelected q) <-> In x (mSelected p))).
Proof.
  intros data p node Hnd q. subst q. rewrite mSelected_toggleSelected.
  destruct (find (mSelected p) node) as [pos|] eqn:E.
  - pose proof (find_In _ _ _ E) as Hin.
    rewrite (erase_find_remove _ _ _ Hnd E). split.
    + split; [intros H; now apply remove_In in H | tauto].
    + intros x Hx. split.
      * intros H. now apply in_remove in H.
      * intros H. now apply in_in_remove.
  - apply find_None_iff in E. split.
    + split; [tauto|]. intros _. apply in_or_app. right. now left.
    + intros x Hx. rewrite in_app_iff. simpl. intuition congruence.
Qed.

(** Toggling node 2 on the selection [0; 2]: 2 leaves, 0 stays. *)
Lemma toggleSelected_membership_example :
  let q := toggleSelected (Examples.present Examples.graph3)
                          (Examples.withSelection [0; 2]) 2 in
  ~ In 2 (mSelected q) /\ In 0 (mSelected q).
Proof.
  assert (Hnd : NoDup (mSelected (Examples.withSelection [0; 2]))).
  { repeat constructor; simpl; intuition discriminate. }
  destruct (toggleSelected_membership (Examples.present Examples.graph3)
              (Examples.withSelection [0; 2]) 2 Hnd) as (H1 & H2).
  split.
  - intros H. apply H1 in H. apply H. simpl. auto.
  - apply H2; [discriminate | simpl; auto].
Defined.

(** With the graph resolving, the inverted selection holds exactly the
    indices below the point count (taken as an [unsigned short]) that
    were not selected; indices of the old selection beyond the graph are
    dropped. *)
Theorem invertSelected_membership :
  forall (data : Collection) (p : CSVRender.Pathgrid)
         (source : CSMWorld.Pathgrid),
    getPathgridSource data p = Some source ->
    forall i,
      In i (mSelected (invertSelected data p)) <->
      0 <= i < pointCount source /\ ~ In i (mSelected p).
Proof.
  intros data p source Hsrc i.
  destruct (mSelected_invertSelected data p) as (_ & ->).
  unfold selectionAfter. rewrite Hsrc.
  rewrite filter_In, ushort_loop_In, negb_true_iff.
  unfold selected. destruct (in_dec Z.eq_dec i (mSelected p)); intuition.
  discriminate.
Qed.

(** On the three-point graph, inverting [5; 1] selects 0 and 2 and drops
    the index 5 that the graph does not have. *)
Lemma invertSelected_membership_example :
  let q := invertSelected (Examples.present Examples.graph3)
                          (Examples.withSelection [5; 1]) in
  In 0 (mSelected q) /\ In 2 (mSelected q) /\ ~ In 5 (mSelected q).
Proof.
  pose proof (invertSelected_membership (Examples.present Examples.graph3)
                (Examples.withSelection [5; 1]) Examples.graph3 eq_refl)
    as H.
  split; [|split].
  - apply (proj2 (H 0)).
    split; [vm_compute; split; [discriminate | reflexivity]|].
    simpl. intuition discriminate.
  - apply (proj2 (H 2)).
    split; [vm_compute; split; [discriminate | reflexivity]|].
    simpl. intuition discriminate.
  - intros H5. apply (proj1 (H 5)) in H5. destruct H5 as (_ & H5).
    apply H5. simpl. auto.
Defined.

Lemma filter_none (f : Z -> bool) (l : list Z) :
  (forall x, In x l -> f x = false) -> filter f l = [].
Proof.
  induction l as [|x l IH]; simpl; intros H; [reflexivity|].
  rewrite (H x) by auto. apply IH. auto.
Qed.

Lemma filter_all (f : Z -> bool) (l : list Z) :
  (forall x, In x l -> f x = true) -> filter f l = l.
Proof.
  induction l as [|x l IH]; simpl; intros H; [reflexivity|].
  rewrite (H x) by auto. f_equal. apply IH. auto.
Qed.

(** Whether or not the graph resolves, inverting right after
    [selectAll] leaves nothing selected, and inverting right after
    [clearSelected] leaves what [selectAll] selects. *)
Theorem invertSelected_selectAll :
  forall (data : Collection) (p : CSVRender.Pathgrid),
    mSelected (invertSelected data (selectAll data p)) = [] /\
    isSelected (invertSelected data (selectAll data p)) = false /\
    mSelected (invertSelected data (clearSelected p))
    = mSelected (selectAll data p).
Proof.
  intros data p.
  destruct (runSelectionOp_fields data p OpSelectAll) as (Hid & Hs & _).
  destruct (runSelectionOp_fields data p OpClear) as (Hid' & Hs' & _).
  simpl in Hid, Hs, Hid', Hs'.
  destruct (mSelected_invertSelected data (selectAll data p)) as (_ & Hi).
  destruct (mSelected_invertSelected data (clearSelected p)) as (_ & Hi').
  assert (Hempty : mSelected (invertSelected data (selectAll data p)) = []).
  { rewrite Hi. unfold selectionAfter.
    rewrite (getPathgridSource_mId data _ p Hid), Hs.
    destruct (getPathgridSource data p) as [source|]; [|reflexivity].
    apply filter_none. intros x Hx. apply negb_false_iff.
    now apply selected_true_iff. }
  split; [exact Hempty|]. split.
  - unfold isSelected. now rewrite Hempty.
  - rewrite Hi', Hs. unfold selectionAfter.
    rewrite (getPathgridSource_mId data _ p Hid'), Hs'.
    destruct (getPathgridSource data p) as [source|]; [|reflexivity].
    apply filter_all. intros x Hx. reflexivity.
Qed.

(** ** The connection indicator *)

(** With the graph resolving and a duplicate-free selection,
    [setupConnectionIndicator] leaves the selection as it was and puts a
    new highlight in place whose node list is the selection without the
    indicator node, followed by the indicator node: the node is listed
    once, last, whether or not it was selected. *)
Theorem setupConnectionIndicator_highlight :
  forall (data : Collection) (p : CSVRender.Pathgrid)
         (source : CSMWorld.Pathgrid) (node : Z),
    getPathgridSource data p = Some source ->
    NoDup (mSelected p) ->
    let q := setupConnectionIndicator data p node in
    mSelected q = mSelected p /\
    mSelectedGeometry q
    = Some {| handle := mNextHandle p;
              payload := createPathgridSelectedWireframe source
                           (remove Z.eq_dec node (mSelected p) ++ [node]) |} /\
    NoDup (remove Z.eq_dec node (mSelected p) ++ [node]).
Proof.
  intros data p source node Hsrc Hnd q.
  destruct (runSelectionOp_fields data p (OpSetConnectionIndicator node))
    as (_ & Hs & _ & _ & _ & Hg).
  change (runSelectionOp data p (OpSetConnectionIndicator node)) with q
    in Hs, Hg.
  simpl in Hs.
  assert (Hh : highlightNodes q
               = remove Z.eq_dec node (mSelected p) ++ [node]).
  { subst q. unfold setupConnectionIndicator.
    match goal with
    | |- context [createSelectedGeometry data ?p'] =>
        destruct (createSelectedGeometry_fields data p')
          as (_ & _ & _ & _ & _ & _ & _ & _ & ->)
    end.
    unfold highlightNodes. simpl.
    destruct (find (mSelected p) node) as [pos|] eqn:E.
    - now rewrite (erase_find_remove _ _ _ Hnd E).
    - apply find_None_iff in E. now rewrite notin_remove. }
  split; [exact Hs|]. split.
  - rewrite Hg. unfold freshHighlight. now rewrite Hsrc, Hh.
  - apply Permutation_NoDup
      with (l := node :: remove Z.eq_dec node (mSelected p)).
    + apply Permutation_cons_append.
    + constructor; [apply remove_In|].
      clear -Hnd. induction Hnd as [|x l Hnin Hnd IH]; simpl;
        [constructor|].
      destruct (Z.eq_dec node x); [exact IH|].
      constructor; [|exact IH].
      intros H. apply in_remove in H. tauto.
Qed.

(** Marking node 0 of the selection [2; 0; 1] highlights [2; 1; 0]. *)
Lemma setupConnectionIndicator_highlight_example :
  let q := setupConnectionIndicator (Examples.present Examples.graph3)
             (Examples.withSelection [2; 0; 1]) 0 in
  mSelected q = [2; 0; 1] /\
  mSelectedGeometry q
  = Some {| handle := 0%nat;
            payload := createPathgridSelectedWireframe Examples.graph3
                         [2; 1; 0] |}.
Proof.
  assert (Hnd : NoDup (mSelected (Examples.withSelection [2; 0; 1]))).
  { repeat constructor; simpl; intuition discriminate. }
  destruct (setupConnectionIndicator_highlight
              (Examples.present Examples.graph3)
              (Examples.withSelection [2; 0; 1]) Examples.graph3 0
              eq_refl Hnd) as (H1 & H2 & _).
  split; [exact H1 | exact H2].
Defined.

(** [resetMove] cancels a pending move: whatever offsets were added
    before, the offset is zero afterwards and the indicator is off,
    while the selection and the dirty flags are as they were. *)
Theorem resetMove_cancels :
  forall (data : Collection) (p : CSVRender.Pathgrid) (offsets : list Vec3d),
    let moved := fold_left moveSelected offsets p in
    let q := resetMove data moved in
    mSelectedNode q = Vec3_zero /\
    mConnectionIndicator q = false /\
    mSelected q = mSelected p /\
    mChangeGeometry q = mChangeGeometry p /\
    mRemoveGeometry q = mRemoveGeometry p.
Proof.
  intros data p offsets moved q.
  assert (Hm : mSelected moved = mSelected p /\
               mChangeGeometry moved = mChangeGeometry p /\
               mRemoveGeometry moved = mRemoveGeometry p).
  { subst moved. clear q. revert p.
    induction offsets as [|o offsets IH]; intros p; simpl; [auto|].
    destruct (IH (moveSelected p o)) as (H1 & H2 & H3).
    rewrite H1, H2, H3. auto. }
  destruct Hm as (Hs & Hc & Hr).
  destruct (runSelectionOp_fields data moved OpResetMove)
    as (_ & Hs' & Hc' & Hr' & _).
  destruct (runSelectionOp_keeps data moved OpResetMove)
    as (_ & _ & _ & Hn).
  change (runSelectionOp data moved OpResetMove) with q in Hs', Hc', Hr', Hn.
  simpl in Hs'.
  rewrite Hn, Hs', Hc', Hr', Hs, Hc, Hr. repeat split.
  subst q. unfold resetMove. simpl.
  destruct (mConnectionIndicator moved) eqn:Ei; [|simpl; exact Ei].
  match goal with
  | |- context [createSelectedGeometry data ?p'] =>
      destruct (createSelectedGeometry_fields data p')
        as (_ & _ & -> & _)
  end.
  reflexivity.
Qed.


(** ** Looking up an edge *)

Lemma edgeExists_from_first (i : nat) (edges : list Edge) (node1 node2 : Z) :
  Z.of_nat i + Z.of_nat (List.length edges) <= 2147483648 ->
  edgeExists_from i edges node1 node2 = -1 \/
  exists k,
    edgeExists_from i edges node1 node2 = Z.of_nat (i + k) /\
    (exists e, nth_error edges k = Some e /\
               mV0 e = node1 /\ mV1 e = node2) /\
    forall k' e, (k' < k)%nat -> nth_error edges k' = Some e ->
                 ~ (mV0 e = node1 /\ mV1 e = node2).
Proof.
  revert i. induction edges as [|e edges IH]; intros i Hi; simpl in *.
  - now left.
  - destruct (Z.eqb_spec (mV0 e) node1) as [H0|H0];
      destruct (Z.eqb_spec (mV1 e) node2) as [H1|H1]; simpl;
      try (destruct (IH (S i)) as [Hnone|(k & Hk & Hhit & Hfirst)];
           [lia | now left | right; exists (S k); split; [|split]];
           [ rewrite Hk; f_equal; lia
           | exact Hhit
           | intros [|k'] e' Hlt He'; simpl in He';
             [ injection He' as <-; tauto
             | apply (Hfirst k' e'); [lia | exact He'] ] ]).
    right. exists O. split; [|split].
    + unfold int_of_size. rewrite to_int_small by lia. f_equal. lia.
    + exists e. auto.
    + intros k' e' Hlt. lia.
Qed.

(** On a graph whose rows fit an [int], [edgeExists] answers [-1] exactly
    when no row holds the pair, and otherwise the first row that holds
    it, later copies of the pair being ignored. *)
Theorem edgeExists_first_match :
  forall (source : CSMWorld.Pathgrid) (node1 node2 : Z),
    Z.of_nat (List.length (mEdges source)) < INT_MAX ->
    (edgeExists source node1 node2 = -1 /\
     hasEdge source node1 node2 = false) \/
    (exists row,
        edgeExists source node1 node2 = Z.of_nat row /\
        hasEdge source node1 node2 = true /\
        firstEdgeRow source node1 node2 row).
Proof.
  intros source node1 node2 Hsize.
  pose proof (edgeExists_none source node1 node2 Hsize) as Hnone.
  unfold INT_MAX in Hsize.
  destruct (edgeExists_from_first 0 (mEdges source) node1 node2)
    as [H|(k & Hk & Hhit & Hfirst)]; [lia| |].
  - left. unfold edgeExists in *. rewrite H in *. simpl in Hnone.
    split; [reflexivity|]. now destruct (hasEdge source node1 node2).
  - right. exists k. unfold edgeExists in *. rewrite Hk in *.
    split; [reflexivity|]. split; [|split; assumption].
    destruct (hasEdge source node1 node2); [reflexivity|].
    simpl in Hnone. apply Z.eqb_eq in Hnone. lia.
Qed.

(** On a graph that stores 0 -> 1 at rows 1 and 3, the lookup stops at
    a first row holding the pair. *)
Lemma edgeExists_first_match_example :
  exists row,
    edgeExists Examples.graphLoops 0 1 = Z.of_nat row /\
    firstEdgeRow Examples.graphLoops 0 1 row.
Proof.
  destruct (edgeExists_first_match Examples.graphLoops 0 1 eq_refl)
    as [(H & _)|(row & H & _ & Hf)].
  - discriminate H.
  - exists row. split; assumption.
Defined.

(** ** The rows [applyRemoveEdges] deletes *)

Lemma set_insert_In (s : RowSet) (row x : Z) :
  In x (set_insert s row) <-> x = row \/ In x s.
Proof.
  induction s as [|y s IH]; simpl.
  - intuition.
  - destruct (Z.gtb_spec row y); [simpl; intuition|].
    destruct (Z.eqb_spec row y) as [->|Hne]; simpl; [intuition|].
    rewrite IH. intuition.
Qed.

Lemma set_insert_descending (s : RowSet) (row : Z) :
  StronglySorted Z.gt s -> StronglySorted Z.gt (set_insert s row).
Proof.
  induction 1 as [|y s Hs IH Hall]; simpl.
  - repeat constructor.
  - rewrite Forall_forall in Hall.
    destruct (Z.gtb_spec row y) as [Hgt|Hle].
    + constructor; [now constructor; [|apply Forall_forall]|].
      constructor; [lia|]. apply Forall_forall. intros z Hz.
      specialize (Hall _ Hz). lia.
    + destruct (Z.eqb_spec row y) as [->|Hne];
        [constructor; [exact Hs | now apply Forall_forall]|].
      constructor; [exact IH|]. apply Forall_forall. intros z Hz.
      apply set_insert_In in Hz. destruct Hz as [->|Hz]; [lia|].
      now apply Hall.
Qed.

Lemma removeEdges_body_rows (source : CSMWorld.Pathgrid) (sel : NodeList)
      (i j : nat) (rows rows' : RowSet) :
  removeEdges_body source sel i j rows = Some rows' ->
  (StronglySorted Z.gt rows -> StronglySorted Z.gt rows') /\
  forall r, In r rows' <->
            In r rows \/ pairRow source sel i j r \/ pairRow source sel j i r.
Proof.
  unfold removeEdges_body, pairRow.
  destruct (nth_error sel i) as [a|]; [|discriminate].
  destruct (nth_error sel j) as [b|]; [|discriminate].
  intros H. injection H as <-.
  destruct (Z.eqb_spec (edgeExists source a b) (-1)) as [Hab|Hab];
    destruct (Z.eqb_spec (edgeExists source b a) (-1)) as [Hba|Hba];
    simpl; (split; [intros Hs; auto using set_insert_descending|]);
    intros r; rewrite ?set_insert_In; split;
      try (intros [Hr|[(a' & b' & Ea & Eb & Hrow & Hne)
                      |(a' & b' & Ea & Eb & Hrow & Hne)]];
           [ tauto
           | injection Ea as <-; injection Eb as <-; subst r; tauto
           | injection Ea as <-; injection Eb as <-; subst r; tauto ]);
      intros Hr; intuition (subst; eauto 10).
Qed.

Lemma removeEdges_inner_rows (source : CSMWorld.Pathgrid) (sel : NodeList)
      (i j : nat) (rows : RowSet) :
  forall res,
    removeEdges_inner source sel i j rows = Some res ->
    (StronglySorted Z.gt rows -> StronglySorted Z.gt res) /\
    forall r, In r res <->
              In r rows \/
              exists j', (j <= j' < List.length sel)%nat /\
                         (pairRow source sel i j' r \/
                          pairRow source sel j' i r).
Proof.
  funelim (removeEdges_inner source sel i j rows); intros res Hres.
  - injection Hres as <-. split; [auto|]. intros r. split; [auto|].
    intros [Hr|(j' & Hj' & _)]; [exact Hr | lia].
  - match goal with
    | IH : forall res, removeEdges_inner _ _ _ _ _ = Some res -> _ |- _ =>
        destruct (IH res Hres) as (Hsorted & Hmem)
    end.
    match goal with
    | Hb : removeEdges_body _ _ _ _ _ = Some _ |- _ =>
        destruct (removeEdges_body_rows _ _ _ _ _ _ Hb) as (Hsb & Hmb)
    end.
    split; [auto|]. intros r. rewrite Hmem, Hmb. split.
    + intros [[Hr|Hhit]|(j' & Hj' & Hhit)].
      * now left.
      * right. exists j. split; [lia | exact Hhit].
      * right. exists j'. split; [lia | exact Hhit].
    + intros [Hr|(j' & Hj' & Hhit)]; [tauto|].
      destruct (Nat.eq_dec j' j) as [->|Hne]; [tauto|].
      right. exists j'. split; [lia | exact Hhit].
  - discriminate.
Qed.

Lemma removeEdges_outer_rows (source : CSMWorld.Pathgrid) (sel : NodeList)
      (i : nat) (rows : RowSet) :
  forall res,
    removeEdges_outer source sel i rows = Some res ->
    (StronglySorted Z.gt rows -> StronglySorted Z.gt res) /\
    forall r, In r res <->
              In r rows \/
              exists i' j', (i <= i' < j')%nat /\
                            (j' < List.length sel)%nat /\
                            (pairRow source sel i' j' r \/
                             pairRow source sel j' i' r).
Proof.
  funelim (removeEdges_outer source sel i rows); intros res Hres.
  - injection Hres as <-. split; [auto|]. intros r. split; [auto|].
    intros [Hr|(i' & j' & Hi' & Hj' & _)]; [exact Hr | lia].
  - match goal with
    | IH : forall res, removeEdges_outer _ _ _ _ = Some res -> _ |- _ =>
        destruct (IH res Hres) as (Hsorted & Hmem)
    end.
    match goal with
    | Hb : removeEdges_inner _ _ _ _ _ = Some _ |- _ =>
        destruct (removeEdges_inner_rows _ _ _ _ _ _ Hb) as (Hsb & Hmb)
    end.
    split; [auto|]. intros r. rewrite Hmem, Hmb. split.
    + intros [[Hr|(j' & Hj' & Hhit)]|(i' & j' & Hi' & Hj' & Hhit)].
      * now left.
      * right. exists i, j'. repeat split; try lia. exact Hhit.
      * right. exists i', j'. repeat split; try lia. exact Hhit.
    + intros [Hr|(i' & j' & Hi' & Hj' & Hhit)]; [tauto|].
      destruct (Nat.eq_dec i' i) as [->|Hne].
      * left. right. exists j'. split; [lia | exact Hhit].
      * right. exists i', j'. repeat split; try lia. exact Hhit.
  - discriminate.
Qed.

(** The rows of the whole scan: strictly descending, and exactly the
    rows found for the ordered pairs of two different positions. *)
Lemma removeEdges_scan_rows (source : CSMWorld.Pathgrid) (sel : NodeList) :
  exists rows,
    removeEdges_outer source sel 0 [] = Some rows /\
    StronglySorted Z.gt rows /\
    forall r, In r rows <->
              exists i j, i <> j /\ pairRow source sel i j r.
Proof.
  destruct (removeEdges_outer_in_bounds source sel 0 []) as (rows & Hrows).
  exists rows. split; [exact Hrows|].
  destruct (removeEdges_outer_rows source sel 0 [] rows Hrows)
    as (Hsorted & Hmem).
  split; [apply Hsorted; constructor|].
  intros r. rewrite Hmem. split.
  - intros [[]|(i & j & Hij & Hj & [Hhit|Hhit])].
    + exists i, j. split; [lia | exact Hhit].
    + exists j, i. split; [lia | exact Hhit].
  - intros (i & j & Hne & Hhit). right.
    assert (Hi : (i < List.length sel)%nat).
    { destruct Hhit as (a & b & Ha & _). apply nth_error_Some. congruence. }
    assert (Hj : (j < List.length sel)%nat).
    { destruct Hhit as (a & b & _ & Hb & _).
      apply nth_error_Some. congruence. }
    destruct (Nat.lt_ge_cases i j) as [Hlt|Hge].
    + exists i, j. repeat split; try lia. now left.
    + exists j, i. repeat split; try lia. now right.
Qed.

(** With the graph resolving, [applyRemoveEdges] pushes one delete-row
    command per collected row, the rows strictly descending (hence
    without repetition); a row is deleted exactly when [edgeExists]
    finds it for the nodes at two different positions of the selection,
    in either direction. *)
Theorem applyRemoveEdges_rows :
  forall (data : Collection) (p : CSVRender.Pathgrid)
         (commands : CommandMacro) (source : CSMWorld.Pathgrid),
    getPathgridSource data p = Some source ->
    exists rows,
      applyRemoveEdges data p commands
      = Some (commands ++ deleteRowCommands p ColumnId_PathgridEdges rows) /\
      StronglySorted Z.gt rows /\
      forall r, In r rows <->
                exists i j, i <> j /\ pairRow source (mSelected p) i j r.
Proof.
  intros data p commands source Hsrc.
  destruct (removeEdges_scan_rows source (mSelected p))
    as (rows & Hrows & Hsorted & Hmem).
  exists rows. split; [|split; assumption].
  unfold applyRemoveEdges. rewrite Hsrc, Hrows. f_equal.
  apply push_deletes.
Qed.

(** The selection [2; 0; 1] over the graph with the edges 0 -> 1,
    1 -> 0, 1 -> 2, 2 -> 0: the rows go in descending order, and row 3
    (2 -> 0, found for the positions 0 and 1) is among them. *)
Lemma applyRemoveEdges_rows_example :
  exists rows,
    applyRemoveEdges (Examples.present Examples.graph4)
                     (Examples.withSelection [2; 0; 1]) []
    = Some (deleteRowCommands (Examples.withSelection [2; 0; 1])
                              ColumnId_PathgridEdges rows) /\
    StronglySorted Z.gt rows /\ In 3 rows.
Proof.
  destruct (applyRemoveEdges_rows (Examples.present Examples.graph4)
              (Examples.withSelection [2; 0; 1]) [] Examples.graph4 eq_refl)
    as (rows & H & Hsorted & Hmem).
  exists rows. split; [exact H|]. split; [exact Hsorted|].
  apply Hmem. exists 0%nat, 1%nat. split; [discriminate|].
  exists 2, 0. repeat split. discriminate.
Defined.



(** With fewer than two nodes selected there is no pair to scan:
    [applyRemoveEdges] returns the batch as it received it, whether or
    not the graph resolves. *)
Theorem applyRemoveEdges_no_pair :
  forall (data : Collection) (p : CSVRender.Pathgrid)
         (commands : CommandMacro),
    (List.length (mSelected p) <= 1)%nat ->
    applyRemoveEdges data p commands = Some commands.
Proof.
  intros data p commands Hlen. unfold applyRemoveEdges.
  destruct (getPathgridSource data p) as [source|]; [|reflexivity].
  destruct (removeEdges_scan_rows source (mSelected p))
    as (rows & -> & _ & Hmem).
  assert (Hempty : rows = []).
  { destruct rows as [|r rows]; [reflexivity|]. exfalso.
    destruct (proj1 (Hmem r) (or_introl eq_refl))
      as (i & j & Hij & a & b & Ha & Hb & _).
    assert ((i < List.length (mSelected p))%nat)
      by (apply nth_error_Some; congruence).
    assert ((j < List.length (mSelected p))%nat)
      by (apply nth_error_Some; congruence).
    lia. }
  rewrite Hempty. reflexivity.
Qed.

(** A single selected node over a graph full of edges: nothing is
    pushed. *)
Lemma applyRemoveEdges_no_pair_example :
  applyRemoveEdges (Examples.present Examples.graph4)
                   (Examples.withSelection [1]) []
  = Some [].
Proof.
  apply (applyRemoveEdges_no_pair (Examples.present Examples.graph4)
           (Examples.withSelection [1]) []).
  simpl. lia.
Defined.

(** ** Connecting one node to the selection *)

Lemma applyEdges_fold (data : Collection) (p : CSVRender.Pathgrid)
      (source : CSMWorld.Pathgrid) (node : Z) (sel : NodeList)
      (commands : CommandMacro) :
  Z.of_nat (List.length (mEdges source)) < INT_MAX ->
  fold_left (fun commands selected =>
               addEdge data p commands source node selected)
            sel commands
  = commands
    ++ flat_map (fun selected => addEdgeCommands data p source node selected)
                sel.
Proof.
  intros Hsize. revert commands.
  induction sel as [|s sel IH]; intros commands; simpl.
  - now rewrite app_nil_r.
  - rewrite IH, (addEdge_unfold data p commands source node s Hsize).
    unfold addEdgeCommands. now rewrite <- !app_assoc.
Qed.

(** With the graph resolving (rows fitting an [int]), [applyEdges]
    pushes, for each selected node in selection order, what [addEdge]
    pushes for the pair of the fixed node and that node, every time
    against the graph as it was before the batch.  The row numbering
    therefore starts again for each selected node: whatever the size of
    the selection, every appended row is numbered with the edge count
    of the graph or that count plus one. *)
Theorem applyEdges_commands :
  forall (data : Collection) (p : CSVRender.Pathgrid)
         (commands : CommandMacro) (source : CSMWorld.Pathgrid) (node : Z),
    getPathgridSource data p = Some source ->
    Z.of_nat (List.length (mEdges source)) < INT_MAX ->
    let new := flat_map (fun selected =>
                           addEdgeCommands data p source node selected)
                        (mSelected p) in
    applyEdges data p commands node = commands ++ new /\
    forall c row,
      In c new -> appendedRow c = Some row ->
      row = Z.of_nat (List.length (mEdges source)) \/
      row = Z.of_nat (List.length (mEdges source)) + 1.
Proof.
  intros data p commands source node Hsrc Hsize new. split.
  - unfold applyEdges. rewrite Hsrc. now apply applyEdges_fold.
  - intros c row Hc Hrow. subst new. apply in_flat_map in Hc.
    destruct Hc as (s & _ & Hc). unfold addEdgeCommands in Hc.
    apply in_app_or in Hc.
    destruct (hasEdge source node s), (hasEdge source s node);
      simpl in Hc;
      repeat match goal with
             | H : _ \/ _ |- _ => destruct H
             | H : False |- _ => destruct H
             end; subst c; simpl in Hrow;
      try discriminate; injection Hrow as <-; auto.
Qed.

(** Connecting node 0 to the selection [1; 2] of the three-point graph
    that stores only 0 -> 1: row 1 is appended once for each selected
    node, and row 2 once. *)
Lemma applyEdges_commands_example :
  let data := Examples.present Examples.graph3 in
  let p := Examples.withSelection [1; 2] in
  applyEdges data p [] 0
  = edgeRowCommands data p 1 1 0
    ++ edgeRowCommands data p 1 0 2 ++ edgeRowCommands data p 2 2 0.
Proof.
  exact (proj1 (applyEdges_commands (Examples.present Examples.graph3)
                  (Examples.withSelection [1; 2]) [] Examples.graph3 0
                  eq_refl eq_refl)).
Defined.


(** ** Placing a point *)

(** With the graph resolving (its point count fitting an [int]), a call
    of [applyPoint] that stays within defined conversions pushes four
    commands in this order: append a row at the point count, then set
    its X, Y and Z; each value is the clamped integer coordinate, so on
    an exterior instance all three lie in the cell. *)
Theorem applyPoint_commands :
  forall (data : Collection) (p : CSVRender.Pathgrid)
         (basePosition worldPos : Vec3d)
         (commands commands' : CommandMacro) (source : CSMWorld.Pathgrid),
    getPathgridSource data p = Some source ->
    Z.of_nat (List.length (mPoints source)) <= INT_MAX ->
    applyPoint data p basePosition commands worldPos = Some commands' ->
    let row := Z.of_nat (List.length (mPoints source)) in
    exists x y z,
      commands'
      = commands
        ++ AddNestedCommand (mId p) row ColumnId_PathgridPoints
           :: moveRowCommands data p row x y z /\
      (mInterior p = true \/
       (0 <= x <= 8192 /\ 0 <= y <= 8192 /\ 0 <= z <= 8192)).
Proof.
  intros data p basePosition worldPos commands commands' source
         Hsrc Hsize Hres row.
  unfold applyPoint in Hres. rewrite Hsrc in Hres.
  destruct (Vec3_sub worldPos basePosition) as [[dx dy] dz].
  destruct (double_to_int dx) as [ix|]; [|discriminate].
  destruct (double_to_int dy) as [iy|]; [|discriminate].
  destruct (double_to_int dz) as [iz|]; [|discriminate].
  injection Hres as <-.
  exists (clampToCell p ix), (clampToCell p iy), (clampToCell p iz).
  split.
  - unfold int_of_size, INT_MAX in *. rewrite to_int_small by lia.
    unfold push, moveRowCommands. rewrite <- !app_assoc. reflexivity.
  - destruct (clampToCell_in_cell p ix) as [Hi|Hx];
      [now left|].
    destruct (clampToCell_in_cell p iy) as [Hi|Hy];
      [now left|].
    destruct (clampToCell_in_cell p iz) as [Hi|Hz];
      [now left|].
    right. auto.
Qed.

(** A point placed at (8204.5, -3.25, 9000.5) in the exterior cell whose
    base is at (8192, 0, 0): the local coordinates truncate to 12, -3
    and 9000 and are clamped to 12, 0 and 8192, at the new row 2. *)
Lemma applyPoint_commands_example :
  let data := Examples.present Examples.graph2 in
  let p := Examples.withSelection [] in
  let commands' :=
    AddNestedCommand Examples.cellId 2 ColumnId_PathgridPoints
    :: moveRowCommands data p 2 12 0 8192 in
  applyPoint data p (8192%float, 0%float, 0%float) []
             (8204.5%float, (-3.25)%float, 9000.5%float)
  = Some commands' /\
  exists x y z,
    commands'
    = [] ++ AddNestedCommand (mId p) 2 ColumnId_PathgridPoints
            :: moveRowCommands data p 2 x y z /\
    (mInterior p = true \/
     (0 <= x <= 8192 /\ 0 <= y <= 8192 /\ 0 <= z <= 8192)).
Proof.
  split; [reflexivity|].
  apply (applyPoint_commands (Examples.present Examples.graph2)
           (Examples.withSelection [])
           (8192%float, 0%float, 0%float)
           (8204.5%float, (-3.25)%float, 9000.5%float) []
           _ Examples.graph2).
  - reflexivity.
  - vm_compute. discriminate.
  - reflexivity.
Defined.

(** ** Committing a move *)

Lemma pointAt_Some_iff (source : CSMWorld.Pathgrid) (node : Z) :
  (exists point, pointAt source node = Some point) <-> validNode source node.
Proof.
  unfold pointAt, validNode. destruct (Z.ltb_spec node 0) as [Hneg|Hpos].
  - split; [intros (pt & H); discriminate | lia].
  - split.
    + intros (pt & H).
      assert ((Z.to_nat node < List.length (mPoints source))%nat)
        by (apply nth_error_Some; congruence).
      lia.
    + intros H.
      destruct (nth_error (mPoints source) (Z.to_nat node)) as [pt|] eqn:E;
        [eauto|].
      apply nth_error_None in E. lia.
Qed.

Lemma applyPosition_round_None (data : Collection) (p : CSVRender.Pathgrid)
      (source : CSMWorld.Pathgrid) (ox oy oz : Z) (sel : NodeList) :
  fold_left (applyPosition_round data p source ox oy oz) sel None = None.
Proof. induction sel as [|node sel IH]; simpl; auto. Qed.

(** The loop of [applyPosition] over valid rows. *)
Lemma applyPosition_fold_valid (data : Collection) (p : CSVRender.Pathgrid)
      (source : CSMWorld.Pathgrid) (ox oy oz : Z) (sel : NodeList)
      (commands : CommandMacro) :
  Forall (validNode source) sel ->
  fold_left (applyPosition_round data p source ox oy oz) sel (Some commands)
  = Some (commands
          ++ flat_map (positionCommands data p source (ox, oy, oz)) sel).
Proof.
  intros Hvalid. revert commands.
  induction Hvalid as [|node sel Hnode Hvalid IH]; intros commands; simpl.
  - now rewrite app_nil_r.
  - apply pointAt_Some_iff in Hnode. destruct Hnode as (pt & Hpt).
    rewrite Hpt, IH. unfold push, moveRowCommands.
    now rewrite <- !app_assoc.
Qed.

(** The loop of [applyPosition] once it meets a row the graph lacks. *)
Lemma applyPosition_fold_invalid (data : Collection)
      (p : CSVRender.Pathgrid) (source : CSMWorld.Pathgrid) (ox oy oz : Z)
      (sel : NodeList) (commands : CommandMacro) (node : Z) :
  In node sel -> ~ validNode source node ->
  fold_left (applyPosition_round data p source ox oy oz) sel (Some commands)
  = None.
Proof.
  intros Hin Hbad. revert commands.
  induction sel as [|s sel IH]; intros commands; simpl; [destruct Hin|].
  destruct (pointAt source s) as [pt|] eqn:Hpt;
    [|apply applyPosition_round_None].
  destruct Hin as [->|Hin]; [|now apply IH].
  exfalso. apply Hbad. apply pointAt_Some_iff. eauto.
Qed.

Lemma applyPosition_unfold (data : Collection) (p : CSVRender.Pathgrid)
      (commands : CommandMacro) (source : CSMWorld.Pathgrid)
      (ox oy oz : Z) :
  getPathgridSource data p = Some source ->
  pendingOffset p = Some (ox, oy, oz) ->
  applyPosition data p commands
  = fold_left (applyPosition_round data p source ox oy oz)
              (mSelected p) (Some commands).
Proof.
  intros Hsrc Hoff. unfold applyPosition, pendingOffset in *.
  rewrite Hsrc. destruct (mSelectedNode p) as [[x y] z].
  destruct (double_to_int x); [|discriminate].
  destruct (double_to_int y); [|discriminate].
  destruct (double_to_int z); [|discriminate].
  now injection Hoff as -> -> ->.
Qed.

(** With the graph resolving, the pending offset convertible and every
    selected index a row of the graph, [applyPosition] pushes three
    set-value commands (X, Y, Z) per selected node, in selection order
    and addressed at the node's own row, and never appends a row; on an
    exterior instance every value written lies in the cell. *)
Theorem applyPosition_commands :
  forall (data : Collection) (p : CSVRender.Pathgrid)
         (commands : CommandMacro) (source : CSMWorld.Pathgrid)
         (offset : Z * Z * Z),
    getPathgridSource data p = Some source ->
    pendingOffset p = Some offset ->
    Forall (validNode source) (mSelected p) ->
    let new := flat_map (positionCommands data p source offset)
                        (mSelected p) in
    applyPosition data p commands = Some (commands ++ new) /\
    List.length new = (3 * List.length (mSelected p))%nat /\
    forall c, In c new ->
      appendedRow c = None /\
      exists index v,
        c = ModifyCommand index v /\ In (qRow index) (mSelected p) /\
        (mInterior p = true \/ 0 <= v <= 8192).
Proof.
  intros data p commands source [[ox oy] oz] Hsrc Hoff Hvalid new.
  split; [|split].
  - rewrite (applyPosition_unfold data p commands source ox oy oz Hsrc Hoff).
    now apply applyPosition_fold_valid.
  - subst new. clear Hoff. induction Hvalid as [|node sel Hnode _ IH];
      [reflexivity|].
    simpl. rewrite length_app, IH. unfold positionCommands.
    apply pointAt_Some_iff in Hnode. destruct Hnode as (pt & ->).
    simpl. lia.
  - intros c Hc. subst new. apply in_flat_map in Hc.
    destruct Hc as (node & Hnode & Hc). unfold positionCommands in Hc.
    destruct (pointAt source node) as [pt|]; [|destruct Hc].
    simpl in Hc.
    destruct Hc as [<-|[<-|[<-|[]]]]; (split; [reflexivity|]);
      eexists; eexists; (split; [reflexivity|]);
      (split; [exact Hnode | apply clampToCell_in_cell]).
Qed.

(** Moving the selection [1; 0] of the exterior two-point graph by
    (20.5, -30, 9000): the point (10, 10, 10) goes to (30, 0, 8192) and
    the point (0, 0, 0) to (20, 0, 8192). *)
Lemma applyPosition_commands_example :
  let data := Examples.present Examples.graph2 in
  let p := moveSelected (Examples.withSelection [1; 0])
                        (20.5%float, (-30)%float, 9000%float) in
  applyPosition data p []
  = Some (moveRowCommands data p 1 30 0 8192
          ++ moveRowCommands data p 0 20 0 8192).
Proof.
  assert (Hvalid : Forall (validNode Examples.graph2) [1; 0]).
  { repeat constructor; vm_compute; discriminate. }
  exact (proj1 (applyPosition_commands
                  (Examples.present Examples.graph2)
                  (moveSelected (Examples.withSelection [1; 0])
                     (20.5%float, (-30)%float, 9000%float))
                  [] Examples.graph2 (20, -30, 9000)
                  eq_refl eq_refl Hvalid)).
Defined.

(** [applyPosition] does not check the selection against the graph: with
    the graph resolving and the offset convertible, one selected index
    that is not a row of the graph makes it read [mPoints] out of
    bounds. *)
Theorem applyPosition_out_of_bounds :
  forall (data : Collection) (p : CSVRender.Pathgrid)
         (commands : CommandMacro) (source : CSMWorld.Pathgrid)
         (offset : Z * Z * Z) (node : Z),
    getPathgridSource data p = Some source ->
    pendingOffset p = Some offset ->
    In node (mSelected p) ->
    ~ validNode source node ->
    applyPosition data p commands = None.
Proof.
  intros data p commands source [[ox oy] oz] node Hsrc Hoff Hin Hbad.
  rewrite (applyPosition_unfold data p commands source ox oy oz Hsrc Hoff).
  eapply applyPosition_fold_invalid; eassumption.
Qed.

(** Such a selection is one call away: [toggleSelected] accepts node 7
    on the two-point graph, and [applyPosition] then reads outside
    [mPoints]. *)
Lemma applyPosition_out_of_bounds_toggle :
  applyPosition (Examples.present Examples.graph2)
                (toggleSelected (Examples.present Examples.graph2)
                                (Examples.withSelection [0]) 7) []
  = None.
Proof.
  apply (applyPosition_out_of_bounds
           (Examples.present Examples.graph2)
           (toggleSelected (Examples.present Examples.graph2)
                           (Examples.withSelection [0]) 7)
           [] Examples.graph2 (0, 0, 0) 7).
  - reflexivity.
  - reflexivity.
  - simpl. auto.
  - vm_compute. intros [_ H]. discriminate H.
Defined.


(** The selections made by [selectAll] and [invertSelected] hold rows of
    the graph only, so a move committed right after either of them never
    reads [mPoints] out of bounds: with a convertible pending offset,
    [applyPosition] completes, whether or not the graph resolves. *)
Theorem applyPosition_after_select :
  forall (data : Collection) (p : CSVRender.Pathgrid)
         (commands : CommandMacro) (offset : Z * Z * Z),
    pendingOffset p = Some offset ->
    (exists commands',
        applyPosition data (selectAll data p) commands = Some commands') /\
    (exists commands',
        applyPosition data (invertSelected data p) commands = Some commands').
Proof.
  intros data p commands [[ox oy] oz] Hoff.
  assert (Hgen : forall op,
             (forall source, getPathgridSource data p = Some source ->
                             Forall (validNode source)
                                    (selectionAfter data p op)) ->
             match op with OpResetMove => False | _ => True end ->
             exists commands',
               applyPosition data (runSelectionOp data p op) commands
               = Some commands').
  { intros op Hvalid Hop.
    destruct (runSelectionOp_fields data p op) as (Hid & Hsel & _).
    destruct (runSelectionOp_keeps data p op) as (_ & _ & _ & Hnode).
    set (q := runSelectionOp data p op) in *.
    assert (Hoffq : pendingOffset q = Some (ox, oy, oz)).
    { unfold pendingOffset in *.
      replace (mSelectedNode q) with (mSelectedNode p); [exact Hoff|].
      destruct op; try (symmetry; exact Hnode). destruct Hop. }
    destruct (getPathgridSource data q) as [source|] eqn:Hsrc.
    - rewrite (applyPosition_unfold data q commands source ox oy oz
                 Hsrc Hoffq).
      rewrite applyPosition_fold_valid; [eauto|].
      rewrite Hsel. apply Hvalid.
      now rewrite <- (getPathgridSource_mId data q p Hid).
    - unfold applyPosition. rewrite Hsrc. eauto. }
  assert (Hrange : forall source i,
             0 <= i < pointCount source -> validNode source i).
  { intros source i Hi. unfold validNode, pointCount, to_ushort in *.
    pose proof (Z.mod_le (Z.of_nat (List.length (mPoints source))) 65536).
    lia. }
  split.
  - apply (Hgen OpSelectAll); [|exact I].
    intros source Hsrc. simpl. rewrite Hsrc.
    apply Forall_forall. intros i Hi. apply Hrange.
    now apply ushort_loop_In.
  - apply (Hgen OpInvert); [|exact I].
    intros source Hsrc. simpl. rewrite Hsrc.
    apply Forall_forall. intros i Hi. apply filter_In in Hi.
    apply Hrange. now apply ushort_loop_In.
Qed.

(** After [selectAll] on the two-point graph, with the selection moved
    by (1, 2, 3), the move commits. *)
Lemma applyPosition_after_select_example :
  let data := Examples.present Examples.graph2 in
  let p := moveSelected (Examples.withSelection [7])
                        (1%float, 2%float, 3%float) in
  exists commands', applyPosition data (selectAll data p) [] = Some commands'.
Proof.
  exact (proj1 (applyPosition_after_select
                  (Examples.present Examples.graph2)
                  (moveSelected (Examples.withSelection [7])
                                (1%float, 2%float, 3%float))
                  [] (1, 2, 3) eq_refl)).
Defined.

(** A move cancelled by [resetMove] and then committed changes no
    coordinate: with the graph resolving, the selection within the graph
    and the stored coordinates being [int]s, [applyPosition] after
    [resetMove] writes back to every selected point its own coordinates,
    clamped (on an interior instance, exactly its own coordinates). *)
Theorem applyPosition_after_resetMove :
  forall (data : Collection) (p : CSVRender.Pathgrid)
         (commands : CommandMacro) (source : CSMWorld.Pathgrid),
    getPathgridSource data p = Some source ->
    Forall (validNode source) (mSelected p) ->
    Forall intPoint (mPoints source) ->
    applyPosition data (resetMove data p) commands
    = Some (commands
            ++ flat_map (unmovedCommands data p source) (mSelected p)) /\
    (mInterior p = true ->
     forall node point,
       pointAt source node = Some point ->
       unmovedCommands data p source node
       = moveRowCommands data p node (mX point) (mY point) (mZ point)).
Proof.
  intros data p commands source Hsrc Hvalid Hint. split.
  - destruct (runSelectionOp_fields data p OpResetMove) as (Hid & Hsel & _).
    destruct (runSelectionOp_keeps data p OpResetMove)
      as (Hin & _ & _ & Hnode).
    simpl in Hid, Hsel, Hin, Hnode.
    set (q := resetMove data p) in *.
    assert (Hoffq : pendingOffset q = Some (0, 0, 0)).
    { unfold pendingOffset. rewrite Hnode. reflexivity. }
    assert (Hsrcq : getPathgridSource data q = Some source)
      by now rewrite (getPathgridSource_mId data q p Hid).
    rewrite (applyPosition_unfold data q commands source 0 0 0 Hsrcq Hoffq).
    rewrite Hsel, applyPosition_fold_valid by exact Hvalid.
    f_equal. f_equal. apply flat_map_ext. intros node.
    unfold positionCommands, unmovedCommands, pointAt.
    destruct (node <? 0); [reflexivity|].
    destruct (nth_error (mPoints source) (Z.to_nat node)) as [pt|] eqn:E;
      [|reflexivity].
    rewrite Forall_forall in Hint.
    destruct (Hint pt (nth_error_In _ _ E)) as (Hx & Hy & Hz).
    unfold int_add. rewrite !Z.add_0_r, !to_int_small by assumption.
    unfold moveRowCommands, pointIndex, clampToCell.
    now rewrite Hid, Hin.
  - intros Hinterior node point Hpt. unfold unmovedCommands, clampToCell.
    now rewrite Hpt, Hinterior.
Qed.

(** On an interior instance over the three-point graph, a move of the
    selection [2] that is cancelled and then committed writes (20, 0, 5)
    back to row 2. *)
Lemma applyPosition_after_resetMove_example :
  let data := Examples.present Examples.graph3 in
  let p := moveSelected (Examples.interiorWithSelection [2])
                        (100%float, 100%float, 100%float) in
  applyPosition data (resetMove data p) []
  = Some (moveRowCommands data p 2 20 0 5).
Proof.
  assert (Hvalid : Forall (validNode Examples.graph3) [2]).
  { apply Forall_forall. intros node [<-|[]]. unfold validNode. simpl. lia. }
  assert (Hint : Forall intPoint (mPoints Examples.graph3)).
  { apply Forall_forall. intros pt Hpt. simpl in Hpt. unfold intPoint.
    intuition (subst; simpl; lia). }
  exact (proj1 (applyPosition_after_resetMove
                  (Examples.present Examples.graph3)
                  (moveSelected (Examples.interiorWithSelection [2])
                                (100%float, 100%float, 100%float))
                  [] Examples.graph3 eq_refl Hvalid Hint)).
Defined.
